(** * Option resolution of grunt-mutation-testing (utils/OptionUtils.js)

    A shallow embedding of [utils/OptionUtils.js]: the JavaScript values the
    option objects hold, the lodash, path, glob, log4js and grunt calls the
    file makes, and the five functions of the file itself
    ([areRequiredOptionsSet], [ensureReportersConfig], [ensureIgnoreConfig],
    [expandFiles], [getOptions]), followed by the properties of the
    resolution pipeline.

    Conventions.
    - A plain JavaScript object is a finite map from property names to
      values ([gmap string value]); only own properties are modelled, the
      members inherited from [Object.prototype] are not.
    - An array is a list of values.
    - Numbers are integers (the only number of the schema is
      [maxReportedMutationLength]).
    - A call that may throw returns an [outcome]; the calls that write to
      the logger or to grunt's warning channel run in the monad [M], which
      threads the [world]. *)

From stdpp Require Import gmap strings list fin_maps.

#[local] Set Warnings "-register-all,-clear-no-such-hyp".
#[local] Open Scope string_scope.
#[local] Open Scope list_scope.

(** ** JavaScript values *)

Module JS.

Inductive value : Type :=
| VUndefined
| VNull
| VBool (b : bool)
| VNumber (z : Z)
| VString (s : string)
| VRegExp (source : string)
| VFunction (name : string) (arity : nat)
| VArray (elements : list value)
| VObject (props : gmap string value).

(** ToBoolean. *)
Definition truthy (v : value) : bool :=
  match v with
  | VUndefined | VNull => false
  | VBool b => b
  | VNumber z => negb (bool_decide (z = 0%Z))
  | VString s => negb (bool_decide (s = ""))
  | VRegExp _ | VFunction _ _ | VArray _ | VObject _ => true
  end.

(** [o.hasOwnProperty(k)] and the read [o.k] on a plain object. *)
Definition hasOwnProperty (o : gmap string value) (k : string) : bool :=
  bool_decide (is_Some (o !! k)).

Definition prop (o : gmap string value) (k : string) : value :=
  default VUndefined (o !! k).

Inductive exn : Type :=
| TypeError (what : string)
| ExternalError (what : string)
(** the value model has no place for the result: named properties stored
    on an array, a function or a regular expression *)
| NotModelled (what : string).

Inductive outcome (A : Type) : Type :=
| Returned (a : A)
| Thrown (e : exn).
Arguments Returned {A} a.
Arguments Thrown {A} e.

#[global] Instance outcome_ret : MRet outcome := fun A a => Returned a.
#[global] Instance outcome_bind : MBind outcome := fun A B f m =>
  match m with
  | Returned a => f a
  | Thrown e => Thrown e
  end.

(** The read [v.k] on any value: it throws on [undefined] and [null];
    arrays, strings and functions have a [length]. *)
Definition get_member (v : value) (k : string) : outcome value :=
  match v with
  | VUndefined | VNull => Thrown (TypeError "Cannot read property")
  | VObject o => Returned (prop o k)
  | VArray xs =>
      Returned (if bool_decide (k = "length")
                then VNumber (Z.of_nat (length xs)) else VUndefined)
  | VString s =>
      Returned (if bool_decide (k = "length")
                then VNumber (Z.of_nat (String.length s)) else VUndefined)
  | VFunction _ arity =>
      Returned (if bool_decide (k = "length")
                then VNumber (Z.of_nat arity) else VUndefined)
  | VBool _ | VNumber _ | VRegExp _ => Returned VUndefined
  end.

(** The write [v.k = x] in strict mode (the file starts with
    ['use strict']): creating a property on a primitive throws. *)
Definition set_member (v : value) (k : string) (x : value) : outcome value :=
  match v with
  | VObject o => Returned (VObject (<[k := x]> o))
  | VUndefined | VNull => Thrown (TypeError "Cannot set property")
  | VBool _ | VNumber _ | VString _ =>
      Thrown (TypeError "Cannot create property on a primitive")
  | VArray _ | VFunction _ _ | VRegExp _ =>
      Thrown (NotModelled "named property on a non-plain object")
  end.

(** [v === 0]. *)
Definition strict_eq_zero (v : value) : bool :=
  match v with
  | VNumber z => bool_decide (z = 0%Z)
  | _ => false
  end.

(** [[x].concat(v)]: an array argument is spread, anything else is
    appended as one element. *)
Definition concat (xs : list value) (v : value) : list value :=
  match v with
  | VArray ys => xs ++ ys
  | _ => xs ++ [v]
  end.

End JS.
Export JS.

(** ** lodash: [_.isArray], [_.union], [_.merge] *)

Module Lodash.

Definition isArray (v : value) : bool :=
  match v with
  | VArray _ => true
  | _ => false
  end.

(** [baseUniq]: walk the array and push every value that is not yet in
    the result. *)
Fixpoint baseUniq {A} `{EqDecision A} (result array : list A) : list A :=
  match array with
  | [] => result
  | v :: rest =>
      if bool_decide (v ∈ result) then baseUniq result rest
      else baseUniq (result ++ [v]) rest
  end.

(** [_.union(a, b)]: the unique values of [a] followed by [b], in order
    of first occurrence. *)
Definition union {A} `{EqDecision A} (a b : list A) : list A :=
  baseUniq [] (a ++ b).

Definition as_array (d : option value) : list value :=
  match d with
  | Some (VArray xs) => xs
  | _ => []
  end.

Definition as_object (d : option value) : gmap string value :=
  match d with
  | Some (VObject o) => o
  | _ => ∅
  end.

(** [object[key] = value] at the end of one [baseMerge] callback: a key
    of the source gets the merged value, the other keys stay. *)
Definition assignMerged (d : option value)
    (f : option (option value → value)) : option value :=
  match f with
  | None => d
  | Some f => Some (f d)
  end.

(** The callback of [baseMerge] for one source value [src] and the
    destination value [dst] under the same key ([None]: the destination
    has no such key), as lodash documents [_.merge]: arrays and plain
    objects are merged recursively, arrays index by index, into the
    destination's array or plain object (a fresh one when the destination
    holds something else); a source value that is [undefined] is skipped
    when the destination has a value, and leaves the key holding
    [undefined] otherwise; any other source value is assigned.

    The arrays and objects of the result are built by the merge: none of
    them is shared with a source.  This is why the later writes of
    [getOptions] to the merged object and to its [karma] reach neither
    [DEFAULT_OPTIONS] nor grunt's configuration, and why those writes are
    modelled as updates of a map that the function owns. *)
Fixpoint mergeValue (src : value) {struct src} : option value → value :=
  match src with
  | VArray ss => fun dst =>
      VArray ((fix mergeElements (ss ds : list value) {struct ss} :=
                 match ss with
                 | [] => ds
                 | s :: ss' =>
                     mergeValue s (head ds) :: mergeElements ss' (tail ds)
                 end) ss (as_array dst))
  | VObject sp => fun dst =>
      VObject (merge assignMerged (as_object dst) (mergeValue <$> sp))
  | VUndefined => fun dst => default VUndefined dst
  | _ => fun _ => src
  end.

Definition mergeElements : list value → list value → list value :=
  fix mergeElements (ss ds : list value) {struct ss} :=
    match ss with
    | [] => ds
    | s :: ss' => mergeValue s (head ds) :: mergeElements ss' (tail ds)
    end.

Definition baseMerge (object source : gmap string value)
    : gmap string value :=
  merge assignMerged object (mergeValue <$> source).

(** [_.merge(object, source1, source2, ...)]; a source that is
    [undefined] contributes nothing. *)
Definition merge (object : gmap string value)
    (sources : list (option (gmap string value))) : gmap string value :=
  foldl (fun object source =>
           match source with
           | Some source => baseMerge object source
           | None => object
           end) object sources.

End Lodash.

(** ** The collaborators: filesystem, path, log4js, grunt *)

(** What the file reaches through [require]: [glob.sync] on the filesystem
    as it is during the call, [path.join], the [log4js.levels] table and
    the two log4js configuration calls, which may throw. *)
Record env : Type := Env {
  (** [glob.sync(pattern, { dot: true, nodir: true })] *)
  glob_sync : string → list string;
  (** [path.join(a, b)] on two strings *)
  path_join : string → string → string;
  (** [log4js.levels[key]] *)
  log4js_levels : value → value;
  log4js_setGlobalLogLevel : value → outcome unit;
  log4js_configure : value → outcome unit
}.

Inductive log4js_call : Type :=
| SetGlobalLogLevel (level : value)
| Configure (options : value).

(** The state a call of [getOptions] can read or write: grunt's
    configuration store (the [options] mapping found under a property
    path, [None] when that path configures no options), the warnings
    handed to [grunt.warn], and the calls that reconfigured the
    process-wide logger. *)
Record world : Type := World {
  grunt_config_options : list string → option (gmap string value);
  grunt_warnings : list string;
  log4js_calls : list log4js_call
}.

Record task : Type := Task { name : string; target : string }.

(** State and exceptions: a computation reads and writes the [world] and
    returns or throws. *)
Definition M (A : Type) : Type := world → outcome A * world.

#[global] Instance M_ret : MRet M := fun A a w => (Returned a, w).
#[global] Instance M_bind : MBind M := fun A B f m w =>
  match m w with
  | (Returned a, w') => f a w'
  | (Thrown e, w') => (Thrown e, w')
  end.

Definition lift {A} (r : outcome A) : M A := fun w => (r, w).

Definition grunt_config (path : list string)
    : M (option (gmap string value)) :=
  fun w => (Returned (grunt_config_options w path), w).

Definition grunt_warn (message : string) : M unit :=
  fun w => (Returned (),
            World (grunt_config_options w)
                  (grunt_warnings w ++ [message])
                  (log4js_calls w)).

Definition log4js_record (c : log4js_call) (r : outcome unit) : M unit :=
  fun w => (r,
            World (grunt_config_options w)
                  (grunt_warnings w)
                  (log4js_calls w ++ [c])).

(** ** utils/OptionUtils.js *)

Definition CALL_DONE : value := VFunction "CALL_DONE" 1.

Definition DEFAULT_OPTIONS : gmap string value :=
  {[ "before" := CALL_DONE;
     "beforeEach" := CALL_DONE;
     "test" := CALL_DONE;
     "afterEach" := CALL_DONE;
     "after" := CALL_DONE;
     "basePath" := VString ".";
     "testFramework" := VString "karma";
     "logLevel" := VString "INFO";
     "maxReportedMutationLength" := VNumber 80;
     "mutateProductionCode" := VBool false ]}.

Definition DEFAULT_REPORTER : value :=
  VObject {[ "console" := VBool true ]}.

Definition LOG_OPTIONS : value :=
  VObject {[ "appenders" :=
    VArray [ VObject {[ "type" := VString "console";
                        "layout" := VObject
                          {[ "type" := VString "pattern";
                             "pattern" :=
                               VString "%[(%d{ABSOLUTE}) %p [%c]:%] %m" ]} ]} ] ]}.

(** The double quote character, for the source text of [DEFAULT_IGNORE]. *)
Definition dquote : string := String (Ascii.ascii_of_nat 34) EmptyString.

(** [/('use strict'|"use strict");/], by its source text. *)
Definition DEFAULT_IGNORE : value :=
  VRegExp ("('use strict'|" +:+ dquote +:+ "use strict" +:+ dquote +:+ ");").

(** [v.length === 0]. *)
Definition is_empty (v : value) : outcome bool :=
  len ← get_member v "length"; mret (strict_eq_zero len).

Definition areRequiredOptionsSet (opts : gmap string value)
    : outcome (option string) :=
  if negb (hasOwnProperty opts "code")
  then mret (Some "Options has no own code property")
  else if negb (hasOwnProperty opts "specs")
  then mret (Some "Options has no own specs property")
  else if negb (hasOwnProperty opts "mutate")
  then mret (Some "Options has no own mutate property")
  else
    code_empty ← is_empty (prop opts "code");
    if (code_empty : bool) then mret (Some "Code property is empty")
    else
      specs_empty ← is_empty (prop opts "specs");
      if (specs_empty : bool) then mret (Some "Specs property is empty")
      else
        mutate_empty ← is_empty (prop opts "mutate");
        if (mutate_empty : bool) then mret (Some "Mutate property is empty")
        else mret None.

Definition ensureReportersConfig (opts : gmap string value)
    : gmap string value :=
  if negb (hasOwnProperty opts "reporters")
  then <["reporters" := DEFAULT_REPORTER]> opts
  else opts.

Definition ensureIgnoreConfig (opts : gmap string value)
    : gmap string value :=
  if negb (truthy (prop opts "discardDefaultIgnore"))
  then <["ignore" :=
          if truthy (prop opts "ignore")
          then VArray (JS.concat [DEFAULT_IGNORE] (prop opts "ignore"))
          else DEFAULT_IGNORE]> opts
  else opts.

Section OptionUtils.

Context (E : env).

(** [path.join(basePath, fileName)]: both arguments must be strings. *)
Definition join_path (basePath fileName : value) : outcome string :=
  match basePath, fileName with
  | VString b, VString f => Returned (path_join E b f)
  | _, _ => Thrown (TypeError "Arguments to path.join must be strings")
  end.

(** The [_.forEach] loop of [expandFiles], with the accumulator
    [expandedFiles]. *)
Fixpoint expandEach (basePath : value) (files : list value)
    (expandedFiles : list string) : outcome (list string) :=
  match files with
  | [] => Returned expandedFiles
  | fileName :: files' =>
      pattern ← join_path basePath fileName;
      expandEach basePath files'
        (Lodash.union expandedFiles (glob_sync E pattern))
  end.

Definition expandFiles (files basePath : value) : outcome (list string) :=
  let files :=
    if truthy files
    then (if Lodash.isArray files
          then match files with VArray xs => xs | _ => [] end
          else [files])
    else [] in
  expandEach basePath files [].

Definition file_list (files : list string) : value :=
  VArray (VString <$> files).

(** Lines 118 to 124 of [getOptions]: the three required fields are
    replaced by their expansion, then [karma.notIncluded] when [karma]
    is truthy. *)
Definition expandOptions (opts : gmap string value)
    : outcome (gmap string value) :=
  code ← expandFiles (prop opts "code") (prop opts "basePath");
  let opts := <["code" := file_list code]> opts in
  specs ← expandFiles (prop opts "specs") (prop opts "basePath");
  let opts := <["specs" := file_list specs]> opts in
  mutate ← expandFiles (prop opts "mutate") (prop opts "basePath");
  let opts := <["mutate" := file_list mutate]> opts in
  if truthy (prop opts "karma")
  then
    notIncluded ← get_member (prop opts "karma") "notIncluded";
    files ← expandFiles notIncluded (prop opts "basePath");
    karma ← set_member (prop opts "karma") "notIncluded" (file_list files);
    mret (<["karma" := karma]> opts)
  else mret opts.

(** Lines 110 to 112: the merge of the defaults, the task's options and
    the target's options into a fresh object. *)
Definition mergeOptions (globalOpts localOpts : option (gmap string value))
    : gmap string value :=
  Lodash.merge ∅ [Some DEFAULT_OPTIONS; globalOpts; localOpts].

(** Lines 110 to 124: everything [getOptions] does before it validates. *)
Definition prepareOptions (t : task) : M (gmap string value) :=
  globalOpts ← grunt_config [name t];
  localOpts ← grunt_config [name t; target t];
  let opts := mergeOptions globalOpts localOpts in
  let level := log4js_levels E (prop opts "logLevel") in
  _ ← log4js_record (SetGlobalLogLevel level)
        (log4js_setGlobalLogLevel E level);
  _ ← log4js_record (Configure LOG_OPTIONS)
        (log4js_configure E LOG_OPTIONS);
  lift (expandOptions opts).

Definition warning_prefix : string :=
  "Not all required options have been set properly. ".

Definition getOptions (t : task) : M value :=
  opts ← prepareOptions t;
  requiredOptionsSetErr ← lift (areRequiredOptionsSet opts);
  match requiredOptionsSetErr with
  | Some err =>
      _ ← grunt_warn (warning_prefix +:+ err);
      mret VNull
  | None =>
      mret (VObject (ensureIgnoreConfig (ensureReportersConfig opts)))
  end.

End OptionUtils.

(** ** A fixture: three files under [fixtures/]

    The environment of the examples: a directory [fixtures] holding
    [src/a.js], [src/b.js] and [test/a.spec.js], with the answers of
    [glob.sync] and [path.join] on the patterns the examples use. *)

Module Fixture.

Definition files : list string :=
  ["fixtures/src/a.js"; "fixtures/src/b.js"; "fixtures/test/a.spec.js"].

Definition glob (pattern : string) : list string :=
  if bool_decide (pattern = "fixtures/src/**/*.js") then
    ["fixtures/src/a.js"; "fixtures/src/b.js"]
  else if bool_decide (pattern = "fixtures/src/*.js") then
    ["fixtures/src/a.js"; "fixtures/src/b.js"]
  else if bool_decide (pattern = "fixtures/test/**/*.js") then
    ["fixtures/test/a.spec.js"]
  else if bool_decide (pattern ∈ files) then [pattern]
  else [].

(** [path.join] on a base without [..] segments: a leading [./] is
    normalised away, an empty second argument leaves the base. *)
Definition join (a b : string) : string :=
  let a := if String.prefix "./" a
           then String.substring 2 (String.length a - 2) a else a in
  if bool_decide (b = "") then (if bool_decide (a = "") then "." else a)
  else if bool_decide (a = "." ∨ a = "") then b
  else a +:+ "/" +:+ b.

Definition level (n : Z) (levelStr : string) : value :=
  VObject {[ "level" := VNumber n; "levelStr" := VString levelStr ]}.

Definition levels (key : value) : value :=
  match key with
  | VString "ALL" => level 0 "ALL"
  | VString "TRACE" => level 5000 "TRACE"
  | VString "DEBUG" => level 10000 "DEBUG"
  | VString "INFO" => level 20000 "INFO"
  | VString "WARN" => level 30000 "WARN"
  | VString "ERROR" => level 40000 "ERROR"
  | VString "FATAL" => level 50000 "FATAL"
  | VString "OFF" => level 2147483647 "OFF"
  | _ => VUndefined
  end.

Definition E : env :=
  Env glob join levels (fun _ => Returned ()) (fun _ => Returned ()).

Definition mutationTest : task := Task "mutationTest" "target".

(** A configuration store with the given task and target options. *)
Definition store (globalOpts localOpts : option (gmap string value))
    : list string → option (gmap string value) :=
  fun path =>
    if bool_decide (path = ["mutationTest"]) then globalOpts
    else if bool_decide (path = ["mutationTest"; "target"]) then localOpts
    else None.

Definition start (globalOpts localOpts : option (gmap string value))
    : world :=
  World (store globalOpts localOpts) [] [].

(** The options of the end-to-end scenario. *)
Definition scenario : gmap string value :=
  {[ "code" := VString "src/**/*.js";
     "specs" := VString "test/**/*.js";
     "mutate" := VString "src/a.js";
     "basePath" := VString "./fixtures" ]}.

(** The object a run returned ([∅] when it returned no object). *)
Definition resolved (run : outcome value * world) : gmap string value :=
  match run.1 with
  | Returned (VObject o) => o
  | _ => ∅
  end.

(** A task configured without [specs]. *)
Definition without_specs : world :=
  start (Some {[ "code" := VString "src/*.js";
                 "mutate" := VString "src/a.js";
                 "basePath" := VString "./fixtures" ]}) None.

(** The scenario with one more option in the task's layer. *)
Definition run_with (k : string) (v : value) : outcome value * world :=
  getOptions E mutationTest (start (Some (<[k := v]> scenario)) None).

End Fixture.

(** ** Reference definitions for the statements *)

(** The argument of file expansion as the schema has it: nothing, one
    pattern, or a list of patterns. *)
Inductive patterns : Type :=
| NoPatterns
| OnePattern (p : string)
| PatternList (ps : list string).

Definition patterns_value (ps : patterns) : value :=
  match ps with
  | NoPatterns => VUndefined
  | OnePattern p => VString p
  | PatternList ps => VArray (VString <$> ps)
  end.

Definition pattern_list (ps : patterns) : list string :=
  match ps with
  | NoPatterns => []
  | OnePattern p => [p]
  | PatternList ps => ps
  end.

(** The matches of each pattern, joined with the base path, in the order of
    the patterns. *)
Definition matches (E : env) (basePath : string) (ps : list string)
    : list (list string) :=
  (fun p => glob_sync E (path_join E basePath p)) <$> ps.

(** A list read as a set in first-seen order: every element stays where it
    occurs first, its later occurrences are dropped. *)
Fixpoint first_occurrences (l : list string) : list string :=
  match l with
  | [] => []
  | x :: l' => x :: filter (fun y => y ≠ x) (first_occurrences l')
  end.

(** File expansion as the left-to-right union of the patterns' matches. *)
Definition expands_to_union (E : env) (ps : patterns) (basePath : string)
    : Prop :=
  expandFiles E (patterns_value ps) (VString basePath)
  = Returned (first_occurrences (mjoin (matches E basePath (pattern_list ps)))).

(** The options object after its three required fields have been replaced
    by file lists. *)
Definition with_files (opts : gmap string value)
    (code specs mutate : list string) : gmap string value :=
  <["mutate" := file_list mutate]>
    (<["specs" := file_list specs]>
       (<["code" := file_list code]> opts)).

(** The world after one more warning. *)
Definition warned (message : string) (w : world) : world :=
  World (grunt_config_options w) (grunt_warnings w ++ [message])
        (log4js_calls w).

(** The six checks of the validation rule, in the order the spec lists
    them. *)
Inductive check : Type :=
| FieldPresent (field : string)
| ListNonEmpty (field : string).

Definition required_checks : list check :=
  [ FieldPresent "code"; FieldPresent "specs"; FieldPresent "mutate";
    ListNonEmpty "code"; ListNonEmpty "specs"; ListNonEmpty "mutate" ].

Definition check_passes (opts : gmap string value) (c : check)
    : outcome bool :=
  match c with
  | FieldPresent field => Returned (hasOwnProperty opts field)
  | ListNonEmpty field =>
      empty ← is_empty (prop opts field); mret (negb empty)
  end.

(** The first check that does not pass, the later ones left unevaluated. *)
Fixpoint first_failure (opts : gmap string value) (checks : list check)
    : outcome (option check) :=
  match checks with
  | [] => Returned None
  | c :: checks' =>
      passes ← check_passes opts c;
      if (passes : bool) then first_failure opts checks'
      else Returned (Some c)
  end.

Definition capitalize (s : string) : string :=
  match s with
  | EmptyString => EmptyString
  | String c s' =>
      let n := Ascii.nat_of_ascii c in
      String (if bool_decide (97 ≤ n ≤ 122)%nat
              then Ascii.ascii_of_nat (n - 32) else c) s'
  end.

(** The message of a failed check; it names the field. *)
Definition check_message (c : check) : string :=
  match c with
  | FieldPresent field => "Options has no own " +:+ field +:+ " property"
  | ListNonEmpty field => capitalize field +:+ " property is empty"
  end.

(** The validation rule: the message of the first failing check, if any. *)
Definition validation_rule (opts : gmap string value)
    : outcome (option string) :=
  failed ← first_failure opts required_checks;
  mret (check_message <$> (failed : option check)).

(** The merged options of a task and target, as [getOptions] builds them
    from the configuration store of a world. *)
Definition merged_options (t : task) (w : world) : gmap string value :=
  mergeOptions (grunt_config_options w [name t])
               (grunt_config_options w [name t; target t]).

(** Ignore injection decided by the presence of the caller's [ignore]. *)
Definition ignore_by_presence (discardDefaultIgnore : value)
    (ignore : option value) : option value :=
  if truthy discardDefaultIgnore then ignore
  else match ignore with
       | Some patterns => Some (VArray (JS.concat [DEFAULT_IGNORE] patterns))
       | None => Some DEFAULT_IGNORE
       end.

(** Ignore injection decided by the truthiness of the caller's [ignore]. *)
Definition ignore_by_truthiness (discardDefaultIgnore : value)
    (ignore : option value) : option value :=
  if truthy discardDefaultIgnore then ignore
  else match ignore with
       | Some patterns =>
           if truthy patterns
           then Some (VArray (JS.concat [DEFAULT_IGNORE] patterns))
           else Some DEFAULT_IGNORE
       | None => Some DEFAULT_IGNORE
       end.

(** The field [k] of an options layer that may be missing. *)
Definition layer_lookup (layer : option (gmap string value)) (k : string)
    : option value :=
  layer ≫= (fun o => o !! k).

(** One more layer over a field: a layer without the field leaves the
    earlier value, a layer with the field merges its value over it. *)
Definition layer_field (earlier later : option value) : option value :=
  match later with
  | None => earlier
  | Some v => Some (Lodash.mergeValue v earlier)
  end.




(** Values of the schema's type "pattern or list of patterns": nothing, a
    string, or a list of strings. *)
Definition is_string (v : value) : bool :=
  match v with
  | VString _ => true
  | _ => false
  end.

Definition patterns_typed (v : value) : bool :=
  match v with
  | VUndefined | VString _ => true
  | VArray xs => forallb is_string xs
  | _ => false
  end.

(** Options whose file fields have the types of the schema: [basePath] is
    a string, [code], [specs] and [mutate] are patterns, and [karma], when
    there is one, is an object whose [notIncluded] is patterns. *)
Definition options_typed (opts : gmap string value) : bool :=
  is_string (prop opts "basePath")
  && patterns_typed (prop opts "code")
  && patterns_typed (prop opts "specs")
  && patterns_typed (prop opts "mutate")
  && match opts !! "karma" with
     | None => true
     | Some (VObject karma) => patterns_typed (prop karma "notIncluded")
     | Some _ => false
     end.

(** The list [expandFiles] iterates over: the first line of its body,
    [files ? _.isArray(files) ? files : [files] : []]. *)
Definition normalized_files (files : value) : list value :=
  if truthy files
  then match files with
       | VArray xs => xs
       | _ => [files]
       end
  else [].

(** [path.join(basePath, fileName)] accepts every element of the list. *)
Definition joinable (basePath : value) (files : list value) : bool :=
  forallb (fun fileName => is_string basePath && is_string fileName) files.

(** The size of a value, for induction over nested arrays and objects. *)
Fixpoint value_size (v : value) : nat :=
  match v with
  | VArray xs => S (sum_list (value_size <$> xs))
  | VObject o =>
      S (map_fold (fun _ n total => n + total)%nat 0%nat (value_size <$> o))
  | _ => 1
  end.

(** * Properties *)

(** ** [_.union] and file expansion *)

Section Union.

Implicit Types l acc : list string.

Lemma filter_all (P : string → Prop) `{!∀ x, Decision (P x)} l :
  (∀ x, x ∈ l → P x) → filter P l = l.
Proof.
  induction l as [|x l IH]; intros HP; [done|].
  rewrite filter_cons_True by (apply HP; left).
  f_equal. apply IH. intros y Hy. apply HP. by right.
Qed.

Lemma first_occurrences_subseteq l x :
  x ∈ first_occurrences l → x ∈ l.
Proof.
  revert x. induction l as [|y l IH]; intros x; simpl; [done|].
  rewrite !elem_of_cons, list_elem_of_filter. naive_solver.
Qed.

Lemma elem_of_first_occurrences l x :
  x ∈ first_occurrences l ↔ x ∈ l.
Proof.
  split; [apply first_occurrences_subseteq|].
  induction l as [|y l IH]; simpl; [done|].
  rewrite !elem_of_cons, list_elem_of_filter.
  destruct (decide (x = y)); naive_solver.
Qed.

Lemma NoDup_first_occurrences l : NoDup (first_occurrences l).
Proof.
  induction l as [|y l IH]; simpl; [constructor|].
  constructor.
  - rewrite list_elem_of_filter. naive_solver.
  - by apply NoDup_filter.
Qed.

Lemma first_occurrences_NoDup l : NoDup l → first_occurrences l = l.
Proof.
  induction 1 as [|x l Hx _ IH]; simpl; [done|].
  rewrite IH. f_equal.
  apply filter_all. intros y Hy ->. by apply Hx.
Qed.

(** The accumulator loop of [baseUniq] against the reference. *)
Lemma baseUniq_first_occurrences acc l :
  Lodash.baseUniq acc l
  = acc ++ filter (fun y => y ∉ acc) (first_occurrences l).
Proof.
  revert acc. induction l as [|x l IH]; intros acc; simpl.
  - by rewrite filter_nil, app_nil_r.
  - rewrite filter_cons, list_filter_filter.
    case_bool_decide as Hx.
    + rewrite IH. destruct (decide (x ∉ acc)); [done|].
      f_equal. apply list_filter_iff. intros y. naive_solver.
    + rewrite IH. destruct (decide (x ∉ acc)); [|done].
      rewrite <- app_assoc. simpl. do 2 f_equal.
      apply list_filter_iff. intros y.
      rewrite elem_of_app, list_elem_of_singleton. naive_solver.
Qed.

Lemma union_first_occurrences a b :
  Lodash.union a b = first_occurrences (a ++ b).
Proof.
  unfold Lodash.union. rewrite baseUniq_first_occurrences. simpl.
  apply filter_all. intros x _. apply not_elem_of_nil.
Qed.

Lemma first_occurrences_app a b :
  first_occurrences (a ++ b)
  = first_occurrences a ++ filter (fun y => y ∉ a) (first_occurrences b).
Proof.
  induction a as [|x a IH]; simpl.
  - symmetry. apply filter_all. intros x _. apply not_elem_of_nil.
  - rewrite IH, filter_app, list_filter_filter. do 2 f_equal.
    apply list_filter_iff. intros y. rewrite not_elem_of_cons. naive_solver.
Qed.

Lemma first_occurrences_idemp_app a b :
  first_occurrences (first_occurrences a ++ b) = first_occurrences (a ++ b).
Proof.
  rewrite !first_occurrences_app.
  rewrite (first_occurrences_NoDup (first_occurrences a))
    by apply NoDup_first_occurrences.
  f_equal. apply list_filter_iff. intros y.
  by rewrite elem_of_first_occurrences.
Qed.

End Union.

Section ExpandFiles.

Context (E : env).

Lemma expandEach_strings (basePath : string) (ps acc : list string) :
  NoDup acc →
  expandEach E (VString basePath) (VString <$> ps) acc
  = Returned (first_occurrences (acc ++ mjoin (matches E basePath ps))).
Proof.
  revert acc. induction ps as [|p ps IH]; intros acc Hacc; simpl.
  - by rewrite app_nil_r, first_occurrences_NoDup.
  - rewrite IH by (rewrite union_first_occurrences;
                   apply NoDup_first_occurrences).
    by rewrite union_first_occurrences, first_occurrences_idemp_app,
      app_assoc.
Qed.

Lemma expandFiles_falsy (files basePath : value) :
  truthy files = false → expandFiles E files basePath = Returned [].
Proof. intros Hf. unfold expandFiles. by rewrite Hf. Qed.

Lemma expandFiles_patterns (ps : patterns) (basePath : string) :
  ps ≠ OnePattern "" → expands_to_union E ps basePath.
Proof.
  intros Hps. unfold expands_to_union, expandFiles.
  destruct ps as [|p|ps]; simpl.
  - done.
  - case_bool_decide as Hp; [by subst|]. simpl.
    by rewrite union_first_occurrences, app_nil_r.
  - by rewrite expandEach_strings by constructor.
Qed.

Lemma expandFiles_NoDup (files basePath : value) (result : list string) :
  expandFiles E files basePath = Returned result → NoDup result.
Proof.
  unfold expandFiles.
  generalize (if truthy files
              then if Lodash.isArray files
                   then match files with VArray xs => xs | _ => [] end
                   else [files]
              else []).
  intros l. assert (Hnil : NoDup (@nil string)) by constructor.
  revert Hnil. generalize (@nil string).
  induction l as [|f l IH]; intros acc Hacc; simpl.
  - by intros [= <-].
  - destruct (join_path E basePath f) as [p|e]; simpl; [|done].
    apply IH. rewrite union_first_occurrences.
    apply NoDup_first_occurrences.
Qed.

End ExpandFiles.

(** C5, as stated, fails for the empty pattern: [expandFiles] tests its
    argument for truthiness, so the pattern [""] is treated like no pattern
    at all, although joined with the base path [fixtures/src/a.js] it names
    that file. *)
Lemma expandFiles_empty_pattern_counterexample :
  expandFiles Fixture.E (VString "") (VString "fixtures/src/a.js")
  = Returned []
  ∧ ¬ expands_to_union Fixture.E (OnePattern "") "fixtures/src/a.js".
Proof. split; [reflexivity|]. unfold expands_to_union. vm_compute. discriminate. Qed.

(** C5 (amended): file expansion returns the empty list when the patterns
    argument is absent or otherwise falsy (the empty pattern included);
    for a non-empty single pattern or a list of patterns it returns the
    left-to-right union of each pattern's matches (joined with the base
    path), as a set in first-seen order: the result has no duplicates,
    holds exactly the paths some pattern matches, and a further pattern
    only appends the paths no earlier pattern has contributed. *)
Theorem expandFiles_ordered_union (E : env) (basePath : string) :
  (∀ files base, truthy files = false → expandFiles E files base = Returned [])
  ∧ (∀ ps, ps ≠ OnePattern "" →
       expands_to_union E ps basePath
       ∧ ∃ result,
           expandFiles E (patterns_value ps) (VString basePath) = Returned result
           ∧ NoDup result
           ∧ ∀ x, x ∈ result ↔
                  ∃ p, p ∈ pattern_list ps
                       ∧ x ∈ glob_sync E (path_join E basePath p))
  ∧ (∀ ps p,
       first_occurrences (mjoin (matches E basePath (ps ++ [p])))
       = first_occurrences (mjoin (matches E basePath ps))
         ++ filter (fun x => x ∉ mjoin (matches E basePath ps))
              (first_occurrences (glob_sync E (path_join E basePath p)))).
Proof.
  split; [|split].
  - intros files base. apply expandFiles_falsy.
  - intros ps Hps. pose proof (expandFiles_patterns E ps basePath Hps) as Hu.
    split; [done|]. eexists. split; [exact Hu|].
    split; [apply NoDup_first_occurrences|].
    intros x. rewrite elem_of_first_occurrences. unfold matches.
    rewrite list_elem_of_join. split.
    + intros (m & Hx & Hm). apply list_elem_of_fmap in Hm as (p & -> & Hp).
      eauto.
    + intros (p & Hp & Hx). eexists. split; [exact Hx|].
      apply list_elem_of_fmap. eauto.
  - intros ps p. unfold matches.
    by rewrite fmap_app, join_app, first_occurrences_app; simpl;
      rewrite app_nil_r.
Qed.

Lemma expandFiles_ordered_union_witness :
  PatternList ["src/*.js"; "src/a.js"] ≠ OnePattern ""
  ∧ expandFiles Fixture.E (VArray [VString "src/*.js"; VString "src/a.js"])
      (VString "./fixtures")
    = Returned ["fixtures/src/a.js"; "fixtures/src/b.js"].
Proof.
  split; [discriminate|].
  exact (proj1 (proj1 (proj2 (expandFiles_ordered_union Fixture.E "./fixtures"))
                  (PatternList ["src/*.js"; "src/a.js"]) ltac:(discriminate))).
Defined.

(** ** The expansion stage of [getOptions] *)

Section ExpandOptions.

Context (E : env).

Lemma prop_insert (o : gmap string value) (k : string) (v : value) :
  prop (<[k := v]> o) k = v.
Proof. unfold prop. by rewrite lookup_insert_eq. Qed.

Lemma prop_insert_ne (o : gmap string value) (k k' : string) (v : value) :
  k ≠ k' → prop (<[k := v]> o) k' = prop o k'.
Proof. intros. unfold prop. by rewrite lookup_insert_ne. Qed.

Lemma expandOptions_unfold (opts : gmap string value) :
  expandOptions E opts
  = (code ← expandFiles E (prop opts "code") (prop opts "basePath");
     specs ← expandFiles E (prop opts "specs") (prop opts "basePath");
     mutate ← expandFiles E (prop opts "mutate") (prop opts "basePath");
     if truthy (prop opts "karma")
     then
       notIncluded ← get_member (prop opts "karma") "notIncluded";
       files ← expandFiles E notIncluded (prop opts "basePath");
       karma ← set_member (prop opts "karma") "notIncluded"
                 (file_list files);
       mret (<["karma" := karma]> (with_files opts code specs mutate))
     else mret (with_files opts code specs mutate)).
Proof.
  unfold expandOptions, with_files.
  destruct (expandFiles E (prop opts "code") _) as [code|]; simpl; [|done].
  rewrite !prop_insert_ne by done.
  destruct (expandFiles E (prop opts "specs") _) as [specs|]; simpl; [|done].
  rewrite !prop_insert_ne by done.
  destruct (expandFiles E (prop opts "mutate") _) as [mutate|]; simpl;
    [|done].
  by rewrite !prop_insert_ne by done.
Qed.

End ExpandOptions.

Section Pipeline.

Context (E : env).

Lemma expandOptions_Returned (opts opts' : gmap string value) :
  expandOptions E opts = Returned opts' →
  ∃ code specs mutate,
    expandFiles E (prop opts "code") (prop opts "basePath") = Returned code
    ∧ expandFiles E (prop opts "specs") (prop opts "basePath")
      = Returned specs
    ∧ expandFiles E (prop opts "mutate") (prop opts "basePath")
      = Returned mutate
    ∧ ((truthy (prop opts "karma") = false
        ∧ opts' = with_files opts code specs mutate)
       ∨ (truthy (prop opts "karma") = true
          ∧ ∃ notIncluded files karma,
              get_member (prop opts "karma") "notIncluded"
              = Returned notIncluded
              ∧ expandFiles E notIncluded (prop opts "basePath")
                = Returned files
              ∧ set_member (prop opts "karma") "notIncluded"
                  (file_list files) = Returned karma
              ∧ opts' = <["karma" := karma]>
                          (with_files opts code specs mutate))).
Proof.
  rewrite expandOptions_unfold.
  destruct (expandFiles E (prop opts "code") _) as [code|]; simpl; [|done].
  destruct (expandFiles E (prop opts "specs") _) as [specs|]; simpl; [|done].
  destruct (expandFiles E (prop opts "mutate") _) as [mutate|]; simpl;
    [|done].
  intros H. exists code, specs, mutate. do 3 (split; [done|]).
  destruct (truthy (prop opts "karma")) eqn:Hk.
  - right. split; [done|].
    destruct (get_member (prop opts "karma") "notIncluded") as [ni|]
      eqn:Hni; simpl in H; [|done].
    destruct (expandFiles E ni _) as [files|] eqn:Hfiles; simpl in H;
      [|done].
    destruct (set_member _ _ _) as [karma|] eqn:Hset; simpl in H; [|done].
    exists ni, files, karma. by injection H as <-.
  - left. split; [done|]. by injection H as <-.
Qed.

(** What the expansion stage leaves in the required fields and in every
    field it does not write. *)
Lemma expandOptions_fields (opts opts' : gmap string value) :
  expandOptions E opts = Returned opts' →
  (∃ code specs mutate,
     opts' !! "code" = Some (file_list code)
     ∧ opts' !! "specs" = Some (file_list specs)
     ∧ opts' !! "mutate" = Some (file_list mutate))
  ∧ ∀ k, k ∉ ["code"; "specs"; "mutate"; "karma"] → opts' !! k = opts !! k.
Proof.
  intros (code & specs & mutate & _ & _ & _ & Hk)%expandOptions_Returned.
  assert (Hwf : ∀ o, (o = with_files opts code specs mutate
                      ∨ ∃ karma, o = <["karma" := karma]>
                                 (with_files opts code specs mutate)) →
            (o !! "code" = Some (file_list code)
             ∧ o !! "specs" = Some (file_list specs)
             ∧ o !! "mutate" = Some (file_list mutate))
            ∧ ∀ k, k ∉ ["code"; "specs"; "mutate"; "karma"] →
                   o !! k = opts !! k).
  { intros o Ho. split.
    - destruct Ho as [->|[karma ->]]; unfold with_files;
        by simplify_map_eq.
    - intros k Hk'. rewrite !not_elem_of_cons in Hk'.
      destruct Hk' as (? & ? & ? & ? & _).
      destruct Ho as [->|[karma ->]]; unfold with_files;
        by simplify_map_eq. }
  destruct (Hwf opts') as [(? & ? & ?) ?]; [|by eauto 10].
  destruct Hk as [[_ ->]|[_ (? & ? & karma & _ & _ & _ & ->)]]; eauto.
Qed.

(** [prepareOptions] reads the configuration store and writes only the
    logger. *)
Lemma prepareOptions_frame (t : task) (w : world) :
  grunt_config_options (prepareOptions E t w).2 = grunt_config_options w
  ∧ grunt_warnings (prepareOptions E t w).2 = grunt_warnings w.
Proof.
  unfold prepareOptions, mbind, M_bind, grunt_config, log4js_record, lift.
  simpl.
  destruct (log4js_setGlobalLogLevel E _); simpl; [|done].
  destruct (log4js_configure E _); simpl; done.
Qed.

Lemma prepareOptions_Returned (t : task) (w w' : world)
    (opts : gmap string value) :
  prepareOptions E t w = (Returned opts, w') →
  expandOptions E (merged_options t w) = Returned opts.
Proof.
  unfold merged_options, prepareOptions, mbind, M_bind, grunt_config, log4js_record, lift.
  simpl.
  destruct (log4js_setGlobalLogLevel E _); simpl; [|done].
  destruct (log4js_configure E _); simpl; [|done].
  by intros [= -> _].
Qed.

Lemma getOptions_unfold (t : task) (w : world) :
  getOptions E t w
  = match prepareOptions E t w with
    | (Returned opts, w') =>
        match areRequiredOptionsSet opts with
        | Returned (Some err) =>
            (Returned VNull, warned (warning_prefix +:+ err) w')
        | Returned None =>
            (Returned
               (VObject (ensureIgnoreConfig (ensureReportersConfig opts))),
             w')
        | Thrown e => (Thrown e, w')
        end
    | (Thrown e, w') => (Thrown e, w')
    end.
Proof.
  unfold getOptions, mbind at 1 2, M_bind at 1 2.
  destruct (prepareOptions E t w) as [[opts|e] w']; [|done].
  unfold lift. destruct (areRequiredOptionsSet opts) as [[err|]|]; done.
Qed.

End Pipeline.

(** ** Validation of the required fields *)

Lemma areRequiredOptionsSet_first_failure (opts : gmap string value) :
  areRequiredOptionsSet opts = validation_rule opts.
Proof.
  unfold areRequiredOptionsSet, validation_rule. simpl.
  destruct (hasOwnProperty opts "code"); simpl; [|done].
  destruct (hasOwnProperty opts "specs"); simpl; [|done].
  destruct (hasOwnProperty opts "mutate"); simpl; [|done].
  destruct (is_empty (prop opts "code")) as [[]|]; simpl; [done| |done].
  destruct (is_empty (prop opts "specs")) as [[]|]; simpl; [done| |done].
  destruct (is_empty (prop opts "mutate")) as [[]|]; simpl; done.
Qed.

Lemma hasOwnProperty_Some (o : gmap string value) (k : string) (v : value) :
  o !! k = Some v → hasOwnProperty o k = true.
Proof. intros H. unfold hasOwnProperty. rewrite H. by apply bool_decide_eq_true_2. Qed.

Lemma hasOwnProperty_None (o : gmap string value) (k : string) :
  o !! k = None → hasOwnProperty o k = false.
Proof.
  intros H. unfold hasOwnProperty. rewrite H.
  apply bool_decide_eq_false_2. by intros [? ?].
Qed.

Lemma first_failure_expanded (E : env) (opts opts' : gmap string value) :
  expandOptions E opts = Returned opts' →
  ∃ code specs mutate,
    opts' !! "code" = Some (file_list code)
    ∧ opts' !! "specs" = Some (file_list specs)
    ∧ opts' !! "mutate" = Some (file_list mutate)
    ∧ first_failure opts' required_checks
      = Returned (if bool_decide (code = []) then Some (ListNonEmpty "code")
                  else if bool_decide (specs = [])
                       then Some (ListNonEmpty "specs")
                       else if bool_decide (mutate = [])
                            then Some (ListNonEmpty "mutate")
                            else None).
Proof.
  intros [(code & specs & mutate & Hc & Hs & Hm) _]%expandOptions_fields.
  exists code, specs, mutate. do 3 (split; [done|]).
  simpl. rewrite !(hasOwnProperty_Some _ _ _ Hc), !(hasOwnProperty_Some _ _ _ Hs),
    !(hasOwnProperty_Some _ _ _ Hm). simpl.
  unfold prop. rewrite Hc, Hs, Hm.
  by destruct code, specs, mutate.
Qed.



Lemma validation_after_expansion (E : env) (opts opts' : gmap string value) :
  expandOptions E opts = Returned opts' →
  areRequiredOptionsSet opts' = Returned None
  ∨ ∃ field,
      field ∈ ["code"; "specs"; "mutate"]
      ∧ areRequiredOptionsSet opts'
        = Returned (Some (check_message (ListNonEmpty field))).
Proof.
  intros (code & specs & mutate & _ & _ & _ & Hff)%first_failure_expanded.
  rewrite areRequiredOptionsSet_first_failure. unfold validation_rule.
  rewrite Hff.
  repeat case_bool_decide;
    [right; exists "code"|right; exists "specs"|right; exists "mutate"
    |by left];
    (split; [set_solver|reflexivity]).
Qed.

(** C6: the three "field missing" outcomes of validation cannot occur in
    [getOptions].  The expansion stage assigns [code], [specs] and
    [mutate] (possibly as empty lists) before validation runs, so the three
    presence checks pass, and every warning [getOptions] emits carries one
    of the three emptiness messages. *)
Theorem field_missing_unreachable (E : env) :
  (∀ opts opts',
     expandOptions E opts = Returned opts' →
     hasOwnProperty opts' "code" = true
     ∧ hasOwnProperty opts' "specs" = true
     ∧ hasOwnProperty opts' "mutate" = true
     ∧ ∀ field,
         first_failure opts' required_checks
         ≠ Returned (Some (FieldPresent field)))
  ∧ (∀ t w,
       grunt_warnings (getOptions E t w).2 = grunt_warnings w
       ∨ ∃ message,
           message ∈ ["Code property is empty"; "Specs property is empty";
                      "Mutate property is empty"]
           ∧ grunt_warnings (getOptions E t w).2
             = grunt_warnings w ++ [warning_prefix +:+ message]
           ∧ (getOptions E t w).1 = Returned VNull).
Proof.
  split.
  - intros opts opts' Hexp.
    destruct (first_failure_expanded E _ _ Hexp)
      as (code & specs & mutate & Hc & Hs & Hm & Hff).
    rewrite (hasOwnProperty_Some _ _ _ Hc), (hasOwnProperty_Some _ _ _ Hs),
      (hasOwnProperty_Some _ _ _ Hm).
    do 3 (split; [done|]). intros field. rewrite Hff.
    by repeat case_bool_decide.
  - intros t w. rewrite getOptions_unfold.
    pose proof (prepareOptions_frame E t w) as [_ Hwarn].
    destruct (prepareOptions E t w) as [[opts|e] w'] eqn:Hprep;
      simpl in Hwarn; [|by left].
    apply prepareOptions_Returned, validation_after_expansion in Hprep
      as [->|(field & Hfield & ->)]; [by left|].
    right. exists (check_message (ListNonEmpty field)). simpl.
    rewrite Hwarn. split; [|done].
    rewrite !elem_of_cons in Hfield.
    destruct Hfield as [->|[->|[->|[]%elem_of_nil]]]; vm_compute; set_solver.
Qed.

Lemma field_missing_unreachable_witness :
  hasOwnProperty (with_files ∅ [] [] []) "code" = true
  ∧ hasOwnProperty (with_files ∅ [] [] []) "specs" = true
  ∧ hasOwnProperty (with_files ∅ [] [] []) "mutate" = true.
Proof.
  assert (Hexp : expandOptions Fixture.E ∅
                 = Returned (with_files ∅ [] [] [])) by reflexivity.
  destruct (proj1 (field_missing_unreachable Fixture.E) ∅
              (with_files ∅ [] [] []) Hexp) as (Hc & Hs & Hm & _).
  auto.
Defined.

(** ** Derived defaults: reporters and ignore *)

Section DerivedDefaults.

Context (E : env).

(** A successful resolution went through expansion and validation and
    ends with the two injections. *)
Lemma getOptions_resolved (t : task) (w w' : world)
    (resolved : gmap string value) :
  getOptions E t w = (Returned (VObject resolved), w') →
  ∃ opts,
    expandOptions E (merged_options t w) = Returned opts
    ∧ areRequiredOptionsSet opts = Returned None
    ∧ resolved = ensureIgnoreConfig (ensureReportersConfig opts).
Proof.
  rewrite getOptions_unfold.
  destruct (prepareOptions E t w) as [[opts|e] w''] eqn:Hprep; [|done].
  apply prepareOptions_Returned in Hprep.
  destruct (areRequiredOptionsSet opts) as [[err|]|] eqn:Hreq;
    [done| |done].
  intros [= <- _]. by exists opts.
Qed.

Lemma ensureReportersConfig_lookup (opts : gmap string value) (k : string) :
  ensureReportersConfig opts !! k
  = if bool_decide (k = "reporters")
    then Some (default DEFAULT_REPORTER (opts !! "reporters"))
    else opts !! k.
Proof.
  unfold ensureReportersConfig.
  destruct (decide (k = "reporters")) as [->|Hk].
  - rewrite (bool_decide_eq_true_2 ("reporters" = "reporters")) by done.
    destruct (opts !! "reporters") as [v|] eqn:Hr; simpl.
    + by rewrite (hasOwnProperty_Some _ _ _ Hr).
    + rewrite (hasOwnProperty_None _ _ Hr). simpl.
      by rewrite lookup_insert_eq.
  - rewrite (bool_decide_eq_false_2 (k = "reporters")) by done.
    destruct (hasOwnProperty opts "reporters"); simpl; [done|].
    by rewrite lookup_insert_ne.
Qed.

Lemma ensureIgnoreConfig_lookup (opts : gmap string value) (k : string) :
  ensureIgnoreConfig opts !! k
  = if bool_decide (k = "ignore")
    then ignore_by_truthiness (prop opts "discardDefaultIgnore")
           (opts !! "ignore")
    else opts !! k.
Proof.
  unfold ensureIgnoreConfig, ignore_by_truthiness, prop.
  destruct (decide (k = "ignore")) as [->|Hk].
  - rewrite (bool_decide_eq_true_2 ("ignore" = "ignore")) by done.
    destruct (truthy (default VUndefined (opts !! "discardDefaultIgnore")));
      simpl; [done|].
    rewrite lookup_insert_eq.
    destruct (opts !! "ignore") as [v|]; simpl; [|done].
    by destruct (truthy v).
  - rewrite (bool_decide_eq_false_2 (k = "ignore")) by done.
    destruct (truthy (default VUndefined (opts !! "discardDefaultIgnore")));
      simpl; [done|].
    by rewrite lookup_insert_ne.
Qed.

(** The fields of a resolved object, read off the merged options. *)
Lemma getOptions_resolved_lookup (t : task) (w w' : world)
    (resolved : gmap string value) :
  getOptions E t w = (Returned (VObject resolved), w') →
  resolved !! "reporters"
  = Some (default DEFAULT_REPORTER (merged_options t w !! "reporters"))
  ∧ resolved !! "ignore"
    = ignore_by_truthiness (prop (merged_options t w) "discardDefaultIgnore")
        (merged_options t w !! "ignore")
  ∧ ∀ k, k ∉ ["code"; "specs"; "mutate"; "karma"; "reporters"; "ignore"] →
         resolved !! k = merged_options t w !! k.
Proof.
  intros (opts & Hexp & _ & ->)%getOptions_resolved.
  apply expandOptions_fields in Hexp as [_ Hother].
  rewrite !ensureIgnoreConfig_lookup. simpl.
  unfold prop. rewrite !ensureReportersConfig_lookup. simpl.
  rewrite !Hother by set_solver.
  do 2 (split; [done|]).
  intros k Hk.
  rewrite ensureIgnoreConfig_lookup,
    (bool_decide_eq_false_2 (k = "ignore")) by set_solver.
  rewrite ensureReportersConfig_lookup,
    (bool_decide_eq_false_2 (k = "reporters")) by set_solver.
  apply Hother. set_solver.
Qed.

End DerivedDefaults.

(** C4: the reporters default [{console: true}] is injected if and only if
    the [reporters] key is absent from the merged object; any value under
    that key, an empty mapping included, suppresses the default and passes
    through unchanged. *)
Theorem reporters_default_injection (E : env) :
  DEFAULT_REPORTER = VObject {[ "console" := VBool true ]}
  ∧ (∀ opts,
       (opts !! "reporters" = None →
        ensureReportersConfig opts = <["reporters" := DEFAULT_REPORTER]> opts)
       ∧ (is_Some (opts !! "reporters") → ensureReportersConfig opts = opts))
  ∧ (∀ t w resolved w',
       getOptions E t w = (Returned (VObject resolved), w') →
       (merged_options t w !! "reporters" = None →
        resolved !! "reporters" = Some DEFAULT_REPORTER)
       ∧ (∀ reporters,
            merged_options t w !! "reporters" = Some reporters →
            resolved !! "reporters" = Some reporters)).
Proof.
  split; [reflexivity|]. split.
  - intros opts. unfold ensureReportersConfig. split.
    + intros Hr. by rewrite (hasOwnProperty_None _ _ Hr).
    + intros [v Hr]. by rewrite (hasOwnProperty_Some _ _ _ Hr).
  - intros t w resolved w' (Hr & _ & _)%getOptions_resolved_lookup.
    rewrite Hr. split; [by intros ->|]. by intros v ->.
Qed.

Lemma reporters_default_injection_witness :
  Fixture.resolved (Fixture.run_with "reporters" (VObject ∅)) !! "reporters"
  = Some (VObject ∅).
Proof.
  pose (run := Fixture.run_with "reporters" (VObject ∅)).
  assert (Hrun : getOptions Fixture.E Fixture.mutationTest
                   (Fixture.start
                      (Some (<["reporters" := VObject ∅]> Fixture.scenario))
                      None)
                 = (Returned (VObject (Fixture.resolved run)), run.2))
    by (vm_compute; reflexivity).
  destruct (proj2 (proj2 (reporters_default_injection Fixture.E)) _ _ _ _ Hrun)
    as [_ Hsome].
  apply Hsome. vm_compute. reflexivity.
Defined.

(** C3, as stated, fails when the caller supplies a falsy [ignore]: for
    [ignore: ""] the resolved [ignore] is the bare built-in pattern, not the
    list of the built-in pattern followed by the caller's. *)
Lemma ignore_empty_string_counterexample :
  Fixture.resolved (Fixture.run_with "ignore" (VString "")) !! "ignore"
  = Some DEFAULT_IGNORE
  ∧ ignore_by_presence VUndefined (Some (VString ""))
    = Some (VArray [DEFAULT_IGNORE; VString ""])
  ∧ ¬ (∀ opts,
         ensureIgnoreConfig opts !! "ignore"
         = ignore_by_presence (prop opts "discardDefaultIgnore")
             (opts !! "ignore")).
Proof.
  split; [by vm_compute|]. split; [reflexivity|].
  intros H. specialize (H {[ "ignore" := VString "" ]}).
  vm_compute in H. discriminate.
Qed.

(** C3 (amended): when [discardDefaultIgnore] is truthy, [ignore] is left
    exactly as the caller provided it (absent when nothing was provided);
    otherwise, when the caller supplied a truthy [ignore] value, the
    resolved [ignore] is the list of the built-in pattern followed by the
    caller's pattern or patterns (a single pattern gives a list of two), and
    when the caller supplied nothing or a falsy value it is the bare
    built-in pattern, not wrapped in a list. *)
Theorem ignore_default_injection (E : env) :
  (∀ opts,
     ensureIgnoreConfig opts !! "ignore"
     = ignore_by_truthiness (prop opts "discardDefaultIgnore")
         (opts !! "ignore"))
  ∧ (∀ t w resolved w',
       getOptions E t w = (Returned (VObject resolved), w') →
       let merged := merged_options t w in
       (truthy (prop merged "discardDefaultIgnore") = true →
        resolved !! "ignore" = merged !! "ignore")
       ∧ (truthy (prop merged "discardDefaultIgnore") = false →
          (∀ patterns,
             merged !! "ignore" = Some (VArray patterns) →
             resolved !! "ignore" = Some (VArray (DEFAULT_IGNORE :: patterns)))
          ∧ (∀ pattern,
               merged !! "ignore" = Some pattern →
               truthy pattern = true → Lodash.isArray pattern = false →
               resolved !! "ignore"
               = Some (VArray [DEFAULT_IGNORE; pattern]))
          ∧ (∀ ignore,
               merged !! "ignore" = Some ignore → truthy ignore = false →
               resolved !! "ignore" = Some DEFAULT_IGNORE)
          ∧ (merged !! "ignore" = None →
             resolved !! "ignore" = Some DEFAULT_IGNORE))).
Proof.
  split.
  - intros opts. rewrite ensureIgnoreConfig_lookup.
    by rewrite bool_decide_eq_true_2.
  - intros t w resolved w' (_ & Hi & _)%getOptions_resolved_lookup merged.
    fold merged in Hi. rewrite Hi. unfold ignore_by_truthiness.
    split; [by intros ->|]. intros ->.
    split; [by intros patterns ->|].
    split; [|split].
    + intros pattern -> -> Harr. by destruct pattern.
    + by intros ignore -> ->.
    + by intros ->.
Qed.

Lemma ignore_default_injection_witness :
  Fixture.resolved (Fixture.run_with "ignore" (VArray [VString "foo"]))
    !! "ignore"
  = Some (VArray [DEFAULT_IGNORE; VString "foo"]).
Proof.
  pose (run := Fixture.run_with "ignore" (VArray [VString "foo"])).
  assert (Hrun : getOptions Fixture.E Fixture.mutationTest
                   (Fixture.start
                      (Some (<["ignore" := VArray [VString "foo"]]>
                               Fixture.scenario)) None)
                 = (Returned (VObject (Fixture.resolved run)), run.2))
    by (vm_compute; reflexivity).
  destruct (proj2 (ignore_default_injection Fixture.E) _ _ _ _ Hrun)
    as [_ Hkeep].
  destruct Hkeep as [Hlist _]; [by vm_compute|].
  apply Hlist. by vm_compute.
Defined.

(** C9: when the merged [ignore] is present but falsy (the empty string,
    say) and [discardDefaultIgnore] is falsy, the resolved [ignore] is the
    bare built-in pattern: the caller's value is discarded, not prepended
    to, because the injection tests the value and not the key. *)
Theorem falsy_ignore_discarded (E : env) :
  (∀ opts ignore,
     opts !! "ignore" = Some ignore → truthy ignore = false →
     truthy (prop opts "discardDefaultIgnore") = false →
     ensureIgnoreConfig opts = <["ignore" := DEFAULT_IGNORE]> opts)
  ∧ (∀ t w resolved w' ignore,
       getOptions E t w = (Returned (VObject resolved), w') →
       merged_options t w !! "ignore" = Some ignore →
       truthy ignore = false →
       truthy (prop (merged_options t w) "discardDefaultIgnore") = false →
       resolved !! "ignore" = Some DEFAULT_IGNORE).
Proof.
  split.
  - intros opts ignore Hi Hfalsy Hd. unfold ensureIgnoreConfig.
    rewrite Hd. simpl. unfold prop at 1. by rewrite Hi; simpl; rewrite Hfalsy.
  - intros t w resolved w' ignore (_ & Hi & _)%getOptions_resolved_lookup
      Hm Hfalsy Hd.
    rewrite Hi. unfold ignore_by_truthiness. by rewrite Hd, Hm, Hfalsy.
Qed.

Lemma falsy_ignore_discarded_witness :
  Fixture.resolved (Fixture.run_with "ignore" (VString "")) !! "ignore"
  = Some DEFAULT_IGNORE.
Proof.
  pose (run := Fixture.run_with "ignore" (VString "")).
  assert (Hrun : getOptions Fixture.E Fixture.mutationTest
                   (Fixture.start
                      (Some (<["ignore" := VString ""]> Fixture.scenario))
                      None)
                 = (Returned (VObject (Fixture.resolved run)), run.2))
    by (vm_compute; reflexivity).
  apply (proj2 (falsy_ignore_discarded Fixture.E) _ _ _ _ (VString "") Hrun);
    by vm_compute.
Defined.

(** ** The nested field [karma.notIncluded] *)

Section Karma.

Context (E : env).

Lemma with_files_karma (opts : gmap string value)
    (code specs mutate : list string) :
  with_files opts code specs mutate !! "karma" = opts !! "karma".
Proof. unfold with_files. by rewrite !lookup_insert_ne. Qed.

(** The [karma] field after the expansion stage. *)
Lemma expandOptions_karma (opts opts' : gmap string value) :
  expandOptions E opts = Returned opts' →
  (truthy (prop opts "karma") = false ∧ opts' !! "karma" = opts !! "karma")
  ∨ (truthy (prop opts "karma") = true
     ∧ ∃ notIncluded files karma,
         get_member (prop opts "karma") "notIncluded" = Returned notIncluded
         ∧ expandFiles E notIncluded (prop opts "basePath") = Returned files
         ∧ set_member (prop opts "karma") "notIncluded" (file_list files)
           = Returned karma
         ∧ opts' !! "karma" = Some karma).
Proof.
  intros (code & specs & mutate & _ & _ & _ & Hk)%expandOptions_Returned.
  destruct Hk as [[Hf ->]|[Ht (ni & files & karma & ? & ? & ? & ->)]].
  - left. by rewrite with_files_karma.
  - right. split; [done|]. exists ni, files, karma.
    by rewrite lookup_insert_eq.
Qed.

Lemma expandOptions_karma_object (opts opts' karma : gmap string value) :
  expandOptions E opts = Returned opts' →
  opts !! "karma" = Some (VObject karma) →
  ∃ files,
    expandFiles E (prop karma "notIncluded") (prop opts "basePath")
    = Returned files
    ∧ opts' !! "karma"
      = Some (VObject (<["notIncluded" := file_list files]> karma)).
Proof.
  intros Hexp Hk. apply expandOptions_karma in Hexp.
  assert (Hp : prop opts "karma" = VObject karma)
    by (unfold prop; by rewrite Hk).
  rewrite !Hp in Hexp. simpl in Hexp.
  destruct Hexp as [[? _]|[_ (ni & files & k' & Hni & Hf & Hset & Hk')]];
    [done|].
  injection Hni as <-. injection Hset as <-. by exists files.
Qed.

Lemma getOptions_resolved_karma (t : task) (w w' : world)
    (resolved : gmap string value) :
  getOptions E t w = (Returned (VObject resolved), w') →
  ∃ opts,
    expandOptions E (merged_options t w) = Returned opts
    ∧ resolved !! "karma" = opts !! "karma".
Proof.
  intros (opts & Hexp & _ & ->)%getOptions_resolved.
  exists opts. split; [done|].
  rewrite ensureIgnoreConfig_lookup,
    (bool_decide_eq_false_2 ("karma" = "ignore")) by done.
  by rewrite ensureReportersConfig_lookup,
    (bool_decide_eq_false_2 ("karma" = "reporters")) by done.
Qed.

Lemma expandEach_typed (basePath : string) (files : list value)
    (acc : list string) :
  forallb is_string files = true →
  ∃ result, expandEach E (VString basePath) files acc = Returned result.
Proof.
  revert acc. induction files as [|f files IH]; intros acc Hf; simpl.
  - by eexists.
  - apply andb_prop in Hf as [Hs Hf]. destruct f; try done. simpl.
    by apply IH.
Qed.

Lemma expandFiles_typed (files : value) (basePath : string) :
  patterns_typed files = true →
  ∃ result, expandFiles E files (VString basePath) = Returned result.
Proof.
  intros Ht. unfold expandFiles.
  destruct files; try done; simpl.
  - by eexists.
  - case_bool_decide; simpl; by eexists.
  - by apply expandEach_typed.
Qed.

(** On options of the schema's types the expansion stage returns. *)
Lemma expandOptions_typed (opts : gmap string value) :
  options_typed opts = true →
  ∃ opts', expandOptions E opts = Returned opts'.
Proof.
  unfold options_typed. rewrite !andb_true_iff.
  intros ((((Hb & Hc) & Hs) & Hm) & Hk).
  rewrite expandOptions_unfold.
  destruct (prop opts "basePath") as [| | | |b| | | |] eqn:Hbase; try done.
  destruct (expandFiles_typed _ b Hc) as [code ->].
  destruct (expandFiles_typed _ b Hs) as [specs ->].
  destruct (expandFiles_typed _ b Hm) as [mutate ->].
  simpl. unfold prop at 1 2 3.
  destruct (opts !! "karma") as [[| | | | | | | |karma]|]; try done; simpl;
    [|by eexists].
  destruct (expandFiles_typed _ b Hk) as [files ->]. simpl. by eexists.
Qed.

End Karma.

(** C7: when the merged options hold a [karma] object with a [notIncluded]
    field, resolution replaces [karma.notIncluded] by its expanded file
    list, computed by the same expansion, against the same [basePath], as
    the lists that replace [code], [specs] and [mutate]. *)
Theorem karma_notIncluded_expanded (E : env) :
  (∀ opts karma patterns,
     options_typed opts = true →
     opts !! "karma" = Some (VObject karma) →
     karma !! "notIncluded" = Some patterns →
     ∃ opts' files,
       expandOptions E opts = Returned opts'
       ∧ expandFiles E patterns (prop opts "basePath") = Returned files
       ∧ opts' !! "karma"
         = Some (VObject (<["notIncluded" := file_list files]> karma)))
  ∧ (∀ opts opts' karma patterns,
     expandOptions E opts = Returned opts' →
     opts !! "karma" = Some (VObject karma) →
     karma !! "notIncluded" = Some patterns →
     ∃ files code specs mutate,
       expandFiles E patterns (prop opts "basePath") = Returned files
       ∧ opts' !! "karma"
         = Some (VObject (<["notIncluded" := file_list files]> karma))
       ∧ expandFiles E (prop opts "code") (prop opts "basePath")
         = Returned code
       ∧ opts' !! "code" = Some (file_list code)
       ∧ expandFiles E (prop opts "specs") (prop opts "basePath")
         = Returned specs
       ∧ opts' !! "specs" = Some (file_list specs)
       ∧ expandFiles E (prop opts "mutate") (prop opts "basePath")
         = Returned mutate
       ∧ opts' !! "mutate" = Some (file_list mutate))
  ∧ (∀ t w resolved w' karma patterns,
       getOptions E t w = (Returned (VObject resolved), w') →
       merged_options t w !! "karma" = Some (VObject karma) →
       karma !! "notIncluded" = Some patterns →
       ∃ files,
         expandFiles E patterns (prop (merged_options t w) "basePath")
         = Returned files
         ∧ resolved !! "karma"
           = Some (VObject (<["notIncluded" := file_list files]> karma))).
Proof.
  split; [|split].
  - intros opts karma patterns Ht Hk Hni.
    destruct (expandOptions_typed E _ Ht) as [opts' Hexp].
    destruct (expandOptions_karma_object E _ _ _ Hexp Hk)
      as (files & Hfiles & Hk').
    unfold prop at 1 in Hfiles. rewrite Hni in Hfiles.
    by exists opts', files.
  - intros opts opts' karma patterns Hexp Hk Hni.
    destruct (expandOptions_karma_object E _ _ _ Hexp Hk)
      as (files & Hfiles & Hk').
    unfold prop at 1 in Hfiles. rewrite Hni in Hfiles. simpl in Hfiles.
    apply expandOptions_Returned in Hexp
      as (code & specs & mutate & Hc & Hs & Hm & Hopts).
    exists files, code, specs, mutate.
    do 3 (split; [done|]).
    assert (Hl : ∀ k v, with_files opts code specs mutate !! k = Some v →
                        k ≠ "karma" → opts' !! k = Some v).
    { intros k v Hkv Hne.
      destruct Hopts as [[_ ->]|[_ (? & ? & ? & _ & _ & _ & ->)]]; [done|].
      by rewrite lookup_insert_ne. }
    unfold with_files in Hl.
    repeat split; try done; apply Hl; by simplify_map_eq.
  - intros t w resolved w' karma patterns Hrun Hk Hni.
    apply getOptions_resolved_karma in Hrun as (opts & Hexp & ->).
    destruct (expandOptions_karma_object E _ _ _ Hexp Hk)
      as (files & Hfiles & Hk').
    unfold prop at 1 in Hfiles. rewrite Hni in Hfiles. by exists files.
Qed.

Lemma karma_notIncluded_expanded_witness :
  Fixture.resolved
    (Fixture.run_with "karma"
       (VObject {[ "notIncluded" := VString "src/b.js" ]})) !! "karma"
  = Some (VObject {[ "notIncluded" := VArray [VString "fixtures/src/b.js"] ]}).
Proof.
  pose (karma := {[ "notIncluded" := VString "src/b.js" ]}
                 : gmap string value).
  pose (run := Fixture.run_with "karma" (VObject karma)).
  assert (Hrun : getOptions Fixture.E Fixture.mutationTest
                   (Fixture.start
                      (Some (<["karma" := VObject karma]> Fixture.scenario))
                      None)
                 = (Returned (VObject (Fixture.resolved run)), run.2))
    by (vm_compute; reflexivity).
  destruct (proj2 (proj2 (karma_notIncluded_expanded Fixture.E)) _ _ _ _
              karma (VString "src/b.js") Hrun)
    as (files & Hfiles & Hk); [by vm_compute..|].
  change (Fixture.resolved run !! "karma"
          = Some (VObject {[ "notIncluded" :=
                               VArray [VString "fixtures/src/b.js"] ]})).
  rewrite Hk. vm_compute in Hfiles. injection Hfiles as <-.
  by vm_compute.
Defined.



(** ** Resolving twice *)

Section Idempotence.

Context (E : env).

(** The value [prepareOptions] returns, as a function of the
    configuration store alone. *)
Lemma prepareOptions_value (t : task) (w : world) :
  (prepareOptions E t w).1
  = (let level :=
       log4js_levels E (prop (merged_options t w) "logLevel") in
     _ ← log4js_setGlobalLogLevel E level;
     _ ← log4js_configure E LOG_OPTIONS;
     expandOptions E (merged_options t w)).
Proof.
  unfold prepareOptions, merged_options, mbind at 1 2 3 4, M_bind,
    grunt_config, log4js_record, lift.
  simpl.
  destruct (log4js_setGlobalLogLevel E _); simpl; [|done].
  destruct (log4js_configure E _); simpl; done.
Qed.

Lemma getOptions_value (t : task) (w : world) :
  (getOptions E t w).1
  = (opts ← (prepareOptions E t w).1;
     requiredOptionsSetErr ← areRequiredOptionsSet opts;
     match requiredOptionsSetErr with
     | Some _ => mret VNull
     | None =>
         mret (VObject (ensureIgnoreConfig (ensureReportersConfig opts)))
     end).
Proof.
  rewrite getOptions_unfold.
  destruct (prepareOptions E t w) as [[opts|e] w']; simpl; [|done].
  by destruct (areRequiredOptionsSet opts) as [[err|]|].
Qed.



End Idempotence.


(** ** The merge of the option layers *)

Section Merge.

Lemma mergeValue_array (ss : list value) (dst : option value) :
  Lodash.mergeValue (VArray ss) dst
  = VArray (Lodash.mergeElements ss (Lodash.as_array dst)).
Proof. reflexivity. Qed.

Lemma mergeValue_object (sp : gmap string value) (dst : option value) :
  Lodash.mergeValue (VObject sp) dst
  = VObject (Lodash.baseMerge (Lodash.as_object dst) sp).
Proof. reflexivity. Qed.


Lemma baseMerge_lookup (object source : gmap string value) (k : string) :
  Lodash.baseMerge object source !! k
  = layer_field (object !! k) (source !! k).
Proof.
  unfold Lodash.baseMerge. rewrite lookup_merge, lookup_fmap.
  by destruct (object !! k), (source !! k).
Qed.

Lemma mergeElements_lookup (ss ds : list value) (i : nat) :
  Lodash.mergeElements ss ds !! i = layer_field (ds !! i) (ss !! i).
Proof.
  revert ds i. induction ss as [|s ss IH]; intros ds i; [done|].
  destruct i as [|i]; simpl.
  - by rewrite head_lookup.
  - by rewrite IH, lookup_tail.
Qed.


Lemma merge_layer_lookup (object : gmap string value)
    (layer : option (gmap string value)) (k : string) :
  match layer with
  | Some source => Lodash.baseMerge object source
  | None => object
  end !! k
  = layer_field (object !! k) (layer_lookup layer k).
Proof. destruct layer; [apply baseMerge_lookup|done]. Qed.

Lemma mergeOptions_lookup (globalOpts localOpts : option (gmap string value))
    (k : string) :
  mergeOptions globalOpts localOpts !! k
  = layer_field
      (layer_field (DEFAULT_OPTIONS !! k) (layer_lookup globalOpts k))
      (layer_lookup localOpts k).
Proof.
  unfold mergeOptions, Lodash.merge. simpl.
  rewrite !merge_layer_lookup.
  assert (Hd : Lodash.baseMerge ∅ DEFAULT_OPTIONS = DEFAULT_OPTIONS)
    by (by vm_compute).
  by rewrite Hd.
Qed.

End Merge.




(** ** The end-to-end scenario *)

(** Task options [{code: "src/**/*.js", specs: "test/**/*.js",
    mutate: "src/a.js", basePath: "./fixtures"}], empty target options, on
    the fixture directory. *)
Example end_to_end_scenario :
  let run := getOptions Fixture.E Fixture.mutationTest
               (Fixture.start (Some Fixture.scenario) (Some ∅)) in
  Fixture.resolved run !! "code"
  = Some (file_list ["fixtures/src/a.js"; "fixtures/src/b.js"])
  ∧ Fixture.resolved run !! "specs"
    = Some (file_list ["fixtures/test/a.spec.js"])
  ∧ Fixture.resolved run !! "mutate" = Some (file_list ["fixtures/src/a.js"])
  ∧ Fixture.resolved run !! "reporters" = Some DEFAULT_REPORTER
  ∧ Fixture.resolved run !! "ignore" = Some DEFAULT_IGNORE
  ∧ grunt_warnings run.2 = []
  ∧ log4js_calls run.2
    = [SetGlobalLogLevel (Fixture.level 20000 "INFO"); Configure LOG_OPTIONS].
Proof. by vm_compute. Qed.


(** * Further properties of the code *)

(** ** [expandFiles]: type errors, composition, order of the patterns *)

Section ExpandFilesMore.

Context (E : env).

Lemma expandFiles_normalized (files basePath : value) :
  expandFiles E files basePath
  = expandEach E basePath (normalized_files files) [].
Proof.
  unfold expandFiles, normalized_files.
  destruct (truthy files); [|done]. by destruct files.
Qed.

Lemma expandEach_returns (basePath : value) (files : list value)
    (acc : list string) :
  joinable basePath files = true →
  ∃ result, expandEach E basePath files acc = Returned result.
Proof.
  revert acc. induction files as [|f files IH]; intros acc; simpl.
  - by eexists.
  - intros [[Hb Hf]%andb_prop Hrest]%andb_prop.
    destruct basePath; try done. destruct f; try done. simpl.
    by apply IH.
Qed.

Lemma expandEach_throws (basePath : value) (files : list value)
    (acc : list string) :
  joinable basePath files = false →
  expandEach E basePath files acc
  = Thrown (TypeError "Arguments to path.join must be strings").
Proof.
  revert acc. induction files as [|f files IH]; intros acc; simpl; [done|].
  intros Hj. destruct basePath; try done. destruct f; try done. simpl.
  apply IH. by simpl in Hj.
Qed.

Lemma joinable_false (basePath : value) (files : list value) :
  joinable basePath files = false
  ↔ files ≠ []
    ∧ (is_string basePath = false
       ∨ ∃ fileName, fileName ∈ files ∧ is_string fileName = false).
Proof.
  unfold joinable. split.
  - intros Hj. split; [by intros ->|].
    destruct (is_string basePath) eqn:Hb; [right|by left].
    induction files as [|f files IH]; [done|]. simpl in Hj.
    destruct (is_string f) eqn:Hf.
    + destruct (IH Hj) as (x & Hx & Hs). exists x. split; [by right|done].
    + exists f. split; [by left|done].
  - intros [Hne [Hb|(x & Hx & Hs)]].
    + destruct files as [|f files]; [done|]. simpl. by rewrite Hb.
    + apply not_true_is_false. intros Hall.
      rewrite forallb_forall in Hall.
      apply list_elem_of_In, Hall in Hx.
      apply andb_prop in Hx as [_ Hx]. congruence.
Qed.

Lemma expandFiles_strings (basePath : string) (ps : list string) :
  expandFiles E (VArray (VString <$> ps)) (VString basePath)
  = Returned (first_occurrences (mjoin (matches E basePath ps))).
Proof. apply (expandFiles_patterns E (PatternList ps)). done. Qed.

Lemma union_of_first_occurrences (a b : list string) :
  Lodash.union (first_occurrences a) (first_occurrences b)
  = first_occurrences (a ++ b).
Proof.
  rewrite union_first_occurrences, first_occurrences_idemp_app.
  rewrite !first_occurrences_app.
  by rewrite (first_occurrences_NoDup (first_occurrences b))
    by apply NoDup_first_occurrences.
Qed.

Lemma elem_of_matches (basePath : string) (ps : list string) (x : string) :
  x ∈ mjoin (matches E basePath ps)
  ↔ ∃ p, p ∈ ps ∧ x ∈ glob_sync E (path_join E basePath p).
Proof.
  unfold matches. rewrite list_elem_of_join. split.
  - intros (m & Hx & (p & -> & Hp)%list_elem_of_fmap). eauto.
  - intros (p & Hp & Hx). eexists. split; [exact Hx|].
    apply list_elem_of_fmap. eauto.
Qed.

End ExpandFilesMore.

(** X1: [expandFiles] throws a [TypeError] (the one of [path.join]) exactly
    when it has at least one pattern to process and the base path or one of
    the patterns is not a string; in every other case it returns a list
    without duplicates.  With nothing to process (patterns absent, falsy
    or an empty list) it returns whatever the base path is. *)
Theorem expandFiles_type_error (E : env) (files basePath : value) :
  (joinable basePath (normalized_files files) = false
   ↔ normalized_files files ≠ []
     ∧ (is_string basePath = false
        ∨ ∃ fileName,
            fileName ∈ normalized_files files ∧ is_string fileName = false))
  ∧ (joinable basePath (normalized_files files) = false →
     expandFiles E files basePath
     = Thrown (TypeError "Arguments to path.join must be strings"))
  ∧ (joinable basePath (normalized_files files) = true →
     ∃ result,
       expandFiles E files basePath = Returned result ∧ NoDup result).
Proof.
  split; [apply joinable_false|]. split.
  - intros Hj. rewrite expandFiles_normalized. by apply expandEach_throws.
  - intros Hj. rewrite expandFiles_normalized.
    destruct (expandEach_returns E _ _ [] Hj) as [result Hr].
    exists result. split; [done|].
    apply (expandFiles_NoDup E files basePath).
    by rewrite expandFiles_normalized.
Qed.

Lemma expandFiles_type_error_witness :
  expandFiles Fixture.E (VArray [VString "src/a.js"; VNumber 5])
    (VString "./fixtures")
  = Thrown (TypeError "Arguments to path.join must be strings").
Proof.
  apply (proj1 (proj2 (expandFiles_type_error Fixture.E
                         (VArray [VString "src/a.js"; VNumber 5])
                         (VString "./fixtures")))).
  reflexivity.
Defined.

(** X2: expanding the concatenation of two pattern lists gives the
    [_.union] of the two expansions, so appending patterns never reorders
    or removes what the earlier patterns found; and a single pattern that
    is truthy and not an array expands like the one-element list holding
    it. *)
Theorem expandFiles_concat (E : env) (basePath : string) :
  (∀ ps1 ps2,
     ∃ r1 r2,
       expandFiles E (VArray (VString <$> ps1)) (VString basePath)
       = Returned r1
       ∧ expandFiles E (VArray (VString <$> ps2)) (VString basePath)
         = Returned r2
       ∧ expandFiles E (VArray (VString <$> (ps1 ++ ps2))) (VString basePath)
         = Returned (Lodash.union r1 r2)
       ∧ r1 `prefix_of` Lodash.union r1 r2)
  ∧ (∀ pattern base,
       truthy pattern = true → Lodash.isArray pattern = false →
       expandFiles E pattern base = expandFiles E (VArray [pattern]) base).
Proof.
  split.
  - intros ps1 ps2. do 2 eexists.
    rewrite !expandFiles_strings. do 2 (split; [reflexivity|]).
    rewrite union_of_first_occurrences. unfold matches.
    rewrite fmap_app, join_app. split; [done|].
    rewrite first_occurrences_app. by eexists.
  - intros pattern base Ht Ha. rewrite !expandFiles_normalized.
    unfold normalized_files. rewrite Ht. by destruct pattern.
Qed.

Lemma expandFiles_concat_witness :
  expandFiles Fixture.E (VString "src/a.js") (VString "./fixtures")
  = expandFiles Fixture.E (VArray [VString "src/a.js"]) (VString "./fixtures").
Proof.
  apply (proj2 (expandFiles_concat Fixture.E "./fixtures")); reflexivity.
Defined.

(** X3: the set of expanded files does not depend on the order of the
    patterns: two lists of patterns that are permutations of each other
    expand to permutations of the same duplicate-free list (only the order
    of first discovery differs). *)
Theorem expandFiles_permutation (E : env) (basePath : string)
    (ps ps' : list string) :
  ps ≡ₚ ps' →
  ∃ r r',
    expandFiles E (VArray (VString <$> ps)) (VString basePath) = Returned r
    ∧ expandFiles E (VArray (VString <$> ps')) (VString basePath)
      = Returned r'
    ∧ NoDup r ∧ NoDup r' ∧ r ≡ₚ r'.
Proof.
  intros Hp. do 2 eexists. rewrite !expandFiles_strings.
  do 2 (split; [reflexivity|]).
  do 2 (split; [apply NoDup_first_occurrences|]).
  apply NoDup_Permutation; try apply NoDup_first_occurrences.
  intros x. rewrite !elem_of_first_occurrences, !elem_of_matches.
  split; intros (p & Hin & Hx); exists p; split; try done.
  - by rewrite <- Hp.
  - by rewrite Hp.
Qed.

Lemma expandFiles_permutation_witness :
  ∃ r r',
    expandFiles Fixture.E
      (VArray (VString <$> ["test/**/*.js"; "src/*.js"]))
      (VString "./fixtures") = Returned r
    ∧ expandFiles Fixture.E
        (VArray (VString <$> ["src/*.js"; "test/**/*.js"]))
        (VString "./fixtures") = Returned r'
    ∧ NoDup r ∧ NoDup r' ∧ r ≡ₚ r'.
Proof.
  apply (expandFiles_permutation Fixture.E "./fixtures"
           ["test/**/*.js"; "src/*.js"] ["src/*.js"; "test/**/*.js"]).
  apply Permutation_swap.
Defined.

(** ** What a call of [getOptions] leaves behind *)

Section Outcomes.

Context (E : env).

Lemma resolved_required_field (opts : gmap string value) (field : string) :
  field ∈ ["code"; "specs"; "mutate"] →
  ensureIgnoreConfig (ensureReportersConfig opts) !! field = opts !! field.
Proof.
  intros Hf.
  rewrite ensureIgnoreConfig_lookup,
    (bool_decide_eq_false_2 (field = "ignore")) by set_solver.
  by rewrite ensureReportersConfig_lookup,
    (bool_decide_eq_false_2 (field = "reporters")) by set_solver.
Qed.

Lemma expandOptions_required_field (opts opts' : gmap string value)
    (field : string) :
  expandOptions E opts = Returned opts' →
  field ∈ ["code"; "specs"; "mutate"] →
  ∃ files,
    expandFiles E (prop opts field) (prop opts "basePath") = Returned files
    ∧ opts' !! field = Some (file_list files).
Proof.
  intros (code & specs & mutate & Hc & Hs & Hm & Hopts)%expandOptions_Returned
    Hf.
  assert (Hl : ∀ v, with_files opts code specs mutate !! field = Some v →
                    opts' !! field = Some v).
  { intros v Hv.
    destruct Hopts as [[_ ->]|[_ (? & ? & ? & _ & _ & _ & ->)]]; [done|].
    rewrite lookup_insert_ne; [done|]. set_solver. }
  unfold with_files in Hl. rewrite !elem_of_cons in Hf.
  destruct Hf as [->|[->|[->|[]%elem_of_nil]]];
    eexists; (split; [eassumption|]); apply Hl; by simplify_map_eq.
Qed.

Lemma prepareOptions_calls (t : task) (w : world) :
  log4js_calls (prepareOptions E t w).2
  = log4js_calls w
    ++ SetGlobalLogLevel
         (log4js_levels E (prop (merged_options t w) "logLevel"))
       :: match log4js_setGlobalLogLevel E
                  (log4js_levels E (prop (merged_options t w) "logLevel"))
          with
          | Returned _ => [Configure LOG_OPTIONS]
          | Thrown _ => []
          end.
Proof.
  unfold prepareOptions, merged_options, mbind, M_bind, grunt_config,
    log4js_record, lift.
  simpl.
  destruct (log4js_setGlobalLogLevel E _); simpl; [|done].
  destruct (log4js_configure E _); simpl; by rewrite <- app_assoc.
Qed.

Lemma getOptions_calls (t : task) (w : world) :
  log4js_calls (getOptions E t w).2 = log4js_calls (prepareOptions E t w).2.
Proof.
  rewrite getOptions_unfold.
  destruct (prepareOptions E t w) as [[opts|e] w']; simpl; [|done].
  by destruct (areRequiredOptionsSet opts) as [[err|]|].
Qed.

End Outcomes.

(** X4: in every object [getOptions] returns, [code], [specs] and [mutate]
    are each the expansion of the merged patterns against the merged
    [basePath]: a list of paths that is not empty and has no duplicates. *)
Theorem resolved_file_lists (E : env) (t : task) (w w' : world)
    (resolved : gmap string value) (field : string) :
  getOptions E t w = (Returned (VObject resolved), w') →
  field ∈ ["code"; "specs"; "mutate"] →
  ∃ files,
    expandFiles E (prop (merged_options t w) field)
      (prop (merged_options t w) "basePath") = Returned files
    ∧ resolved !! field = Some (file_list files)
    ∧ NoDup files
    ∧ files ≠ [].
Proof.
  intros (opts & Hexp & Hreq & ->)%getOptions_resolved Hf.
  destruct (expandOptions_required_field E _ _ _ Hexp Hf)
    as (files & Hfiles & Hfield).
  exists files. rewrite resolved_required_field by done.
  do 2 (split; [done|]).
  split; [by eapply expandFiles_NoDup|].
  intros ->.
  destruct (first_failure_expanded E _ _ Hexp)
    as (code & specs & mutate & Hc & Hs & Hm & Hff).
  rewrite areRequiredOptionsSet_first_failure in Hreq.
  unfold validation_rule in Hreq. rewrite Hff in Hreq.
  rewrite !elem_of_cons in Hf.
  destruct Hf as [->|[->|[->|[]%elem_of_nil]]].
  - rewrite Hc in Hfield. injection Hfield as Hfield.
    apply fmap_nil_inv in Hfield as ->. done.
  - rewrite Hs in Hfield. injection Hfield as Hfield.
    apply fmap_nil_inv in Hfield as ->.
    by destruct code.
  - rewrite Hm in Hfield. injection Hfield as Hfield.
    apply fmap_nil_inv in Hfield as ->.
    by destruct code, specs.
Qed.

Lemma resolved_file_lists_witness :
  ∃ files,
    expandFiles Fixture.E (VString "src/**/*.js") (VString "./fixtures")
    = Returned files
    ∧ Fixture.resolved
        (getOptions Fixture.E Fixture.mutationTest
           (Fixture.start (Some Fixture.scenario) None)) !! "code"
      = Some (file_list files)
    ∧ NoDup files
    ∧ files ≠ [].
Proof.
  pose (w := Fixture.start (Some Fixture.scenario) None).
  pose (run := getOptions Fixture.E Fixture.mutationTest w).
  assert (Hrun : getOptions Fixture.E Fixture.mutationTest w
                 = (Returned (VObject (Fixture.resolved run)), run.2))
    by (vm_compute; reflexivity).
  assert (Hin : "code" ∈ ["code"; "specs"; "mutate"]) by (by left).
  exact (resolved_file_lists Fixture.E _ _ _ _ "code" Hrun Hin).
Defined.

(** X5: every call of [getOptions] reconfigures the logger before anything
    else can fail: it sets the global level looked up from the merged
    [logLevel] and then, unless that call threw, configures the appenders,
    whether or not expansion or validation fail afterwards.  An exception
    from either log4js call is the outcome of [getOptions]; and when no
    layer sets [logLevel] the level looked up is the default ["INFO"]. *)
Theorem getOptions_logging (E : env) (t : task) (w : world) :
  let level := log4js_levels E (prop (merged_options t w) "logLevel") in
  log4js_calls (getOptions E t w).2
  = log4js_calls w
    ++ SetGlobalLogLevel level
       :: match log4js_setGlobalLogLevel E level with
          | Returned _ => [Configure LOG_OPTIONS]
          | Thrown _ => []
          end
  ∧ (∀ e, log4js_setGlobalLogLevel E level = Thrown e →
          (getOptions E t w).1 = Thrown e)
  ∧ (∀ e, log4js_setGlobalLogLevel E level = Returned () →
          log4js_configure E LOG_OPTIONS = Thrown e →
          (getOptions E t w).1 = Thrown e)
  ∧ (layer_lookup (grunt_config_options w [name t]) "logLevel" = None →
     layer_lookup (grunt_config_options w [name t; target t]) "logLevel"
     = None →
     level = log4js_levels E (VString "INFO")).
Proof.
  intros level. split; [|split; [|split]].
  - rewrite getOptions_calls. apply prepareOptions_calls.
  - intros e He. rewrite getOptions_value, prepareOptions_value.
    unfold level in He. cbv zeta. by rewrite He.
  - intros e Hs He. rewrite getOptions_value, prepareOptions_value.
    unfold level in Hs. cbv zeta. by rewrite Hs, He.
  - intros Hg Hl. unfold level, merged_options, prop.
    by rewrite mergeOptions_lookup, Hg, Hl.
Qed.

Lemma getOptions_logging_witness :
  log4js_levels Fixture.E
    (prop (merged_options Fixture.mutationTest Fixture.without_specs)
       "logLevel")
  = Fixture.level 20000 "INFO".
Proof.
  apply (proj2 (proj2 (proj2
           (getOptions_logging Fixture.E Fixture.mutationTest
              Fixture.without_specs)))); reflexivity.
Defined.

(** X6: a call of [getOptions] ends in exactly one of three ways: it
    throws, and then no warning was emitted; it returns [null], and then
    exactly one warning was emitted; or it returns an object, and then no
    warning was emitted.  It never returns anything else, and [null] is
    returned exactly when the list of warnings grew. *)
Theorem getOptions_outcomes (E : env) (t : task) (w : world) :
  ((∃ e, (getOptions E t w).1 = Thrown e)
   ∧ grunt_warnings (getOptions E t w).2 = grunt_warnings w)
  ∨ ((getOptions E t w).1 = Returned VNull
     ∧ ∃ message,
         grunt_warnings (getOptions E t w).2
         = grunt_warnings w ++ [warning_prefix +:+ message])
  ∨ ((∃ resolved, (getOptions E t w).1 = Returned (VObject resolved))
     ∧ grunt_warnings (getOptions E t w).2 = grunt_warnings w).
Proof.
  rewrite getOptions_unfold.
  pose proof (prepareOptions_frame E t w) as [_ Hwarn].
  destruct (prepareOptions E t w) as [[opts|e] w'] eqn:Hprep;
    simpl in Hwarn; [|left; eauto].
  destruct (areRequiredOptionsSet opts) as [[err|]|e]; simpl.
  - right; left. rewrite Hwarn. eauto.
  - right; right. eauto.
  - left. eauto.
Qed.

(** ** The two injections composed *)

Lemma ensureIgnoreConfig_truthy (opts : gmap string value) :
  truthy (prop opts "discardDefaultIgnore") = false →
  ∃ ignore,
    ensureIgnoreConfig opts !! "ignore" = Some ignore
    ∧ truthy ignore = true
    ∧ VArray (JS.concat [DEFAULT_IGNORE] ignore) ≠ ignore.
Proof.
  intros Hd. unfold ensureIgnoreConfig. rewrite Hd. simpl.
  rewrite lookup_insert_eq. eexists. split; [done|].
  destruct (truthy (prop opts "ignore")); [|done].
  split; [done|]. simpl.
  destruct (prop opts "ignore"); simpl; try (intros [= H]; discriminate_list).
Qed.

(** X7: the two injections are independent of each other and of their
    order, and the reporters injection is idempotent; the ignore injection
    is not: applied to options that already went through it (with
    [discardDefaultIgnore] falsy) it prepends the built-in pattern once
    more, so its result is never a fixed point. *)
Theorem derived_defaults_compose :
  (∀ opts,
     ensureReportersConfig (ensureReportersConfig opts)
     = ensureReportersConfig opts)
  ∧ (∀ opts,
       ensureIgnoreConfig (ensureReportersConfig opts)
       = ensureReportersConfig (ensureIgnoreConfig opts))
  ∧ (∀ opts,
       truthy (prop opts "discardDefaultIgnore") = false →
       ∃ ignore,
         ensureIgnoreConfig opts !! "ignore" = Some ignore
         ∧ ensureIgnoreConfig (ensureIgnoreConfig opts) !! "ignore"
           = Some (VArray (JS.concat [DEFAULT_IGNORE] ignore))
         ∧ ensureIgnoreConfig (ensureIgnoreConfig opts)
           ≠ ensureIgnoreConfig opts).
Proof.
  split; [|split].
  - intros opts. apply map_eq. intros k.
    rewrite !ensureReportersConfig_lookup.
    case_bool_decide; [|done].
    rewrite (bool_decide_eq_true_2 ("reporters" = "reporters")) by done.
    by destruct (opts !! "reporters").
  - intros opts. apply map_eq. intros k.
    rewrite ensureIgnoreConfig_lookup, !ensureReportersConfig_lookup,
      ensureIgnoreConfig_lookup.
    unfold prop.
    rewrite !ensureReportersConfig_lookup, !ensureIgnoreConfig_lookup.
    rewrite (bool_decide_eq_false_2 ("discardDefaultIgnore" = "reporters")),
      (bool_decide_eq_false_2 ("ignore" = "reporters")),
      (bool_decide_eq_false_2 ("reporters" = "ignore")) by done.
    repeat case_bool_decide; simplify_eq; done.
  - intros opts Hd.
    destruct (ensureIgnoreConfig_truthy opts Hd) as (ignore & Hi & Ht & Hne).
    exists ignore. split; [done|].
    assert (Hd' : truthy (prop (ensureIgnoreConfig opts)
                            "discardDefaultIgnore") = false).
    { unfold prop. rewrite ensureIgnoreConfig_lookup.
      by rewrite (bool_decide_eq_false_2 ("discardDefaultIgnore" = "ignore")). }
    assert (Htwice : ensureIgnoreConfig (ensureIgnoreConfig opts) !! "ignore"
                     = Some (VArray (JS.concat [DEFAULT_IGNORE] ignore))).
    { rewrite ensureIgnoreConfig_lookup.
      rewrite (bool_decide_eq_true_2 ("ignore" = "ignore")) by done.
      unfold ignore_by_truthiness. by rewrite Hd', Hi, Ht. }
    split; [done|]. intros Heq. rewrite Heq, Hi in Htwice.
    injection Htwice as Htwice. by apply Hne.
Qed.

Lemma derived_defaults_compose_witness :
  ∃ ignore,
    ensureIgnoreConfig ∅ !! "ignore" = Some ignore
    ∧ ensureIgnoreConfig (ensureIgnoreConfig ∅) !! "ignore"
      = Some (VArray (JS.concat [DEFAULT_IGNORE] ignore))
    ∧ ensureIgnoreConfig (ensureIgnoreConfig ∅) ≠ ensureIgnoreConfig ∅.
Proof.
  apply (proj2 (proj2 derived_defaults_compose) ∅). reflexivity.
Defined.

(** ** The merge, layer over layer *)

Section MergeMore.

Lemma value_size_element (xs : list value) (x : value) :
  x ∈ xs → (value_size x < value_size (VArray xs))%nat.
Proof.
  intros Hx. cbn [value_size]. apply Nat.lt_succ_r.
  induction Hx as [x xs|x y xs _ IH]; rewrite fmap_cons;
    cbn [sum_list_with]; unfold id in *; lia.
Qed.

Lemma map_fold_sum_lookup (m : gmap string nat) (k : string) (n : nat) :
  m !! k = Some n →
  (n ≤ map_fold (fun _ n total => n + total) 0 m)%nat.
Proof.
  induction m as [|i x m Hi IH] using map_ind; [done|].
  rewrite map_fold_insert_L by (intros; lia || done).
  destruct (decide (i = k)) as [->|Hne].
  - rewrite lookup_insert_eq. intros [= ->]. lia.
  - rewrite lookup_insert_ne by done. intros Hk. specialize (IH Hk). lia.
Qed.

Lemma value_size_prop (o : gmap string value) (k : string) (v : value) :
  o !! k = Some v → (value_size v < value_size (VObject o))%nat.
Proof.
  intros Hk. simpl. apply Nat.lt_succ_r.
  apply (map_fold_sum_lookup _ k). by rewrite lookup_fmap, Hk.
Qed.

Lemma mergeValue_idemp_size (n : nat) (src : value) (dst : option value) :
  (value_size src ≤ n)%nat →
  Lodash.mergeValue src (Some (Lodash.mergeValue src dst))
  = Lodash.mergeValue src dst.
Proof.
  revert src dst. induction n as [|n IH]; intros src dst Hn.
  { destruct src; simpl in Hn; lia. }
  destruct src as [| | | | | | |ss|sp]; try done.
  - rewrite !mergeValue_array. simpl. f_equal.
    apply list_eq. intros i. rewrite !mergeElements_lookup.
    destruct (ss !! i) as [s|] eqn:Hs; simpl; [|done].
    f_equal. apply IH.
    apply list_elem_of_lookup_2, value_size_element in Hs. lia.
  - rewrite !mergeValue_object. simpl. f_equal.
    apply map_eq. intros k. rewrite !baseMerge_lookup.
    destruct (sp !! k) as [s|] eqn:Hs; simpl; [|done].
    f_equal. apply IH.
    apply value_size_prop in Hs. lia.
Qed.

Lemma mergeValue_idemp (src : value) (dst : option value) :
  Lodash.mergeValue src (Some (Lodash.mergeValue src dst))
  = Lodash.mergeValue src dst.
Proof. by apply (mergeValue_idemp_size (value_size src)). Qed.

Lemma baseMerge_idemp (object source : gmap string value) :
  Lodash.baseMerge (Lodash.baseMerge object source) source
  = Lodash.baseMerge object source.
Proof.
  apply map_eq. intros k. rewrite !baseMerge_lookup.
  destruct (source !! k) as [s|]; simpl; [|done].
  by rewrite mergeValue_idemp.
Qed.

Lemma baseMerge_empty (object : gmap string value) :
  Lodash.baseMerge object ∅ = object.
Proof.
  apply map_eq. intros k. by rewrite baseMerge_lookup, lookup_empty.
Qed.

Lemma mergeValue_defined (src d : value) :
  d ≠ VUndefined → Lodash.mergeValue src (Some d) ≠ VUndefined.
Proof. by destruct src. Qed.

Lemma DEFAULT_OPTIONS_defined (k : string) (d : value) :
  DEFAULT_OPTIONS !! k = Some d →
  d ≠ VUndefined
  ∧ k ∉ ["code"; "specs"; "mutate"; "karma"; "reporters"; "ignore"].
Proof.
  intros Hk. split.
  - assert (Hall : map_Forall (fun _ v => v ≠ VUndefined) DEFAULT_OPTIONS).
    { unfold DEFAULT_OPTIONS, CALL_DONE.
      repeat (apply map_Forall_insert_2; [done|]).
      apply map_Forall_empty. }
    by apply (Hall k).
  - intros Hin. rewrite !elem_of_cons in Hin.
    destruct Hin as [->|[->|[->|[->|[->|[->|[]%elem_of_nil]]]]]];
      by vm_compute in Hk.
Qed.

End MergeMore.

(** X8: merging a layer a second time changes nothing, at any depth: the
    merge of one source value over the result of merging it is that
    result, for nested objects and arrays too.  So options repeated
    identically in the task's and the target's layer resolve as if given
    once; a missing layer and an empty layer are the same; and without any
    layer the merged options are [DEFAULT_OPTIONS]. *)
Theorem merge_idempotent :
  (∀ src dst,
     Lodash.mergeValue src (Some (Lodash.mergeValue src dst))
     = Lodash.mergeValue src dst)
  ∧ (∀ object source,
       Lodash.baseMerge (Lodash.baseMerge object source) source
       = Lodash.baseMerge object source)
  ∧ (∀ layer, mergeOptions layer layer = mergeOptions layer None)
  ∧ (∀ g l, Lodash.merge (mergeOptions g l) [l] = mergeOptions g l)
  ∧ (∀ g, mergeOptions g (Some ∅) = mergeOptions g None)
  ∧ mergeOptions None None = DEFAULT_OPTIONS.
Proof.
  split; [apply mergeValue_idemp|].
  split; [apply baseMerge_idemp|].
  split.
  { intros [layer|]; [|done]. unfold mergeOptions, Lodash.merge. simpl.
    apply baseMerge_idemp. }
  split.
  { intros g [l|]; [|done]. unfold mergeOptions, Lodash.merge. simpl.
    apply baseMerge_idemp. }
  split.
  { intros g. unfold mergeOptions, Lodash.merge. simpl.
    apply baseMerge_empty. }
  by vm_compute.
Qed.

(** X9: no layer can remove a default.  Every key of [DEFAULT_OPTIONS] is
    present in the merged options with a value that is not [undefined]
    (a layer that sets the key to [undefined] leaves the default in
    place), it holds the default itself when no layer sets the key, and it
    reaches every resolved object unchanged. *)
Theorem defaults_never_erased (E : env) (k : string) (d : value) :
  DEFAULT_OPTIONS !! k = Some d →
  (∀ g l,
     ∃ v,
       mergeOptions g l !! k = Some v
       ∧ v ≠ VUndefined
       ∧ (layer_lookup g k = None ∨ layer_lookup g k = Some VUndefined →
          layer_lookup l k = None ∨ layer_lookup l k = Some VUndefined →
          v = d))
  ∧ (∀ t w resolved w',
       getOptions E t w = (Returned (VObject resolved), w') →
       ∃ v,
         resolved !! k = Some v ∧ v ≠ VUndefined
         ∧ merged_options t w !! k = Some v).
Proof.
  intros Hk. destruct (DEFAULT_OPTIONS_defined k d Hk) as [Hd Hnotin].
  assert (Hmerged : ∀ g l,
     ∃ v,
       mergeOptions g l !! k = Some v
       ∧ v ≠ VUndefined
       ∧ (layer_lookup g k = None ∨ layer_lookup g k = Some VUndefined →
          layer_lookup l k = None ∨ layer_lookup l k = Some VUndefined →
          v = d)).
  { intros g l. rewrite mergeOptions_lookup, Hk.
    assert (Hlayer : ∀ v later,
              v ≠ VUndefined →
              ∃ v', layer_field (Some v) later = Some v'
                    ∧ v' ≠ VUndefined
                    ∧ (later = None ∨ later = Some VUndefined → v' = v)).
    { intros v [s|] Hv; simpl.
      - eexists. split; [done|]. split; [by apply mergeValue_defined|].
        by intros [|[= ->]].
      - eexists. by repeat split. }
    destruct (Hlayer d (layer_lookup g k) Hd) as (v1 & -> & Hv1 & Hsame1).
    destruct (Hlayer v1 (layer_lookup l k) Hv1) as (v2 & -> & Hv2 & Hsame2).
    exists v2. do 2 (split; [done|]).
    intros Hg Hl. rewrite Hsame2, Hsame1; done. }
  split; [done|].
  intros t w resolved w' (_ & _ & Hother)%getOptions_resolved_lookup.
  destruct (Hmerged (grunt_config_options w [name t])
              (grunt_config_options w [name t; target t]))
    as (v & Hv & Hdef & _).
  exists v. rewrite Hother by done. by repeat split.
Qed.

Lemma defaults_never_erased_witness :
  ∃ v,
    mergeOptions (Some {[ "testFramework" := VUndefined ]}) None
      !! "testFramework" = Some v
    ∧ v ≠ VUndefined
    ∧ (layer_lookup (Some {[ "testFramework" := VUndefined ]}) "testFramework"
       = None
       ∨ layer_lookup (Some {[ "testFramework" := VUndefined ]})
           "testFramework" = Some VUndefined →
       layer_lookup None "testFramework" = None
       ∨ layer_lookup None "testFramework" = Some VUndefined →
       v = VString "karma").
Proof.
  apply (proj1 (defaults_never_erased Fixture.E "testFramework"
                  (VString "karma") eq_refl)).
Defined.

(** ** Validation, seen from the options *)




